(** * Cell (miniSphere packaging compiler): a shallow embedding of
    [src/cell/fs.c], [src/cell/tool.c] and [src/cell/build.c]. *)

From stdpp Require Import base gmap strings list.
From Stdlib Require Import String Ascii.

Open Scope string_scope.
Open Scope list_scope.

(* ===================================================================== *)
(** ** Path algebra ([path_t]) *)
(* ===================================================================== *)

Module Path.

(** Modelled from the spec: the path library [path.c] (the [path_t] type
    used by [fs.c] and [build.c]) is not part of the sources.  Spec 3:
    "An ordered sequence of string hops plus a trailing-separator flag
    indicating directory-ness".  A path written [a/b/c] has hops
    [a; b] and file name [c]; [a/b/] is the directory with hops [a; b]. *)
Record path := mkpath { hops : list string; fname : string }.

Definition is_file (p : path) : bool := negb (String.eqb (fname p) "").

(** Split a string at ['/'] separators. *)
Fixpoint split_slash (s : string) : list string :=
  match s with
  | EmptyString => [""]
  | String c rest =>
      match split_slash rest with
      | [] => [String c ""]
      | seg :: segs =>
          if Ascii.eqb c "/"%char then "" :: seg :: segs
          else String c seg :: segs
      end
  end.

(** Modelled from the spec: [path_new].  The last segment is the file
    name (empty for a trailing separator); the other segments are hops,
    where a leading empty segment (a string starting with ['/']) is kept
    as the root hop of a platform-absolute path and other empty
    segments are dropped. *)
Definition path_new (s : string) : path :=
  let segs := split_slash s in
  let hs := removelast segs in
  let hs' := match hs with
             | "" :: rest => "" :: List.filter (fun h => negb (String.eqb h "")) rest
             | _ => List.filter (fun h => negb (String.eqb h "")) hs
             end in
  mkpath hs' (List.last segs "").

(** Modelled from the spec: [path_new_dir]: the whole string is a
    directory. *)
Definition path_new_dir (s : string) : path :=
  let p := path_new s in
  if is_file p then mkpath (hops p ++ [fname p]) "" else p.

(** [path_to_dir]: a file name becomes the last hop. *)
Definition path_to_dir (p : path) : path :=
  if is_file p then mkpath (hops p ++ [fname p]) "" else p.

Definition path_num_hops (p : path) : nat := List.length (hops p).

Definition path_hop (p : path) (i : nat) : string := nth i (hops p) "".

Definition path_hop_is (p : path) (i : nat) (h : string) : bool :=
  match nth_error (hops p) i with
  | Some h' => String.eqb h' h
  | None => false
  end.

Definition path_remove_hop (p : path) (i : nat) : path :=
  mkpath (firstn i (hops p) ++ skipn (S i) (hops p)) (fname p).

Definition path_insert_hop (p : path) (i : nat) (h : string) : path :=
  mkpath (firstn i (hops p) ++ h :: skipn i (hops p)) (fname p).

(** Modelled from the spec: [path_rebase(path, root)] prepends the hops
    of the directory [root]. *)
Definition path_rebase (p root : path) : path :=
  mkpath (hops (path_to_dir root) ++ hops p) (fname p).

(** [path_strip]: drop the file name. *)
Definition path_strip (p : path) : path := mkpath (hops p) "".

(** Modelled from the spec: [path_append(path, "x/y")] appends the
    hops and file name of a relative path to the directory part. *)
Definition path_append (p : path) (s : string) : path :=
  let q := path_new s in
  mkpath (hops p ++ hops q) (fname q).

(** Modelled from the spec (4.1): a drive hop such as [C:] or the empty
    root hop of [/x] makes a path platform-absolute. *)
Definition hop_is_root (h : string) : bool :=
  String.eqb h ""
  || match h with
     | String _ (String c _) => Ascii.eqb c ":"%char
     | _ => false
     end.

Definition path_is_rooted (p : path) : bool :=
  match hops p with
  | h :: _ => hop_is_root h
  | [] => false
  end.

(** Modelled from the spec (4.1): [path_collapse] folds [.] and
    [x/..] with a hard stop at the first hop: a [..] with nothing left
    to cancel is kept as it is. *)
Fixpoint collapse_rev (acc : list string) (hs : list string) : list string :=
  match hs with
  | [] => acc
  | h :: rest =>
      if String.eqb h "." then collapse_rev acc rest
      else if String.eqb h ".." then
        match acc with
        | top :: acc' => if String.eqb top ".." then collapse_rev (h :: acc) rest
                         else collapse_rev acc' rest
        | [] => collapse_rev [h] rest
        end
      else collapse_rev (h :: acc) rest
  end.

Definition path_collapse (p : path) : path :=
  mkpath (rev (collapse_rev [] (hops p))) (fname p).

Definition path_filename (p : path) : string := fname p.

(** Modelled from the spec: [path_cstr] joins the hops with ['/']. *)
Definition path_cstr (p : path) : string :=
  fold_right (fun h acc => String.append h (String.append "/" acc)) (fname p) (hops p).

End Path.
Import Path.

(* ===================================================================== *)
(** ** SphereFS ([fs.c]) *)
(* ===================================================================== *)

Module SphereFS.

(** [struct fs]: the four real roots; [user_path] may be [NULL]. *)
Record fs_t := mkfs {
  root_path : path;
  game_path : path;
  system_path : path;
  user_path : option path;
}.

(** [resolve] (fs.c 484-526).  [None] is the sandbox violation. *)
Definition resolve (fs : fs_t) (filename : string) : option path :=
  let p := path_new filename in
  if path_is_rooted p then None
  else if Nat.eqb (path_num_hops p) 0 then Some (path_rebase p (root_path fs))
  else if path_hop_is p 0 "$" then
    Some (path_rebase (path_remove_hop p 0) (root_path fs))
  else if path_hop_is p 0 "@" then
    Some (path_rebase (path_remove_hop p 0) (game_path fs))
  else if path_hop_is p 0 "#" then
    Some (path_rebase (path_remove_hop p 0) (system_path fs))
  else if path_hop_is p 0 "~" then
    match user_path fs with
    | None => None
    | Some u => Some (path_rebase (path_remove_hop p 0) u)
    end
  else Some (path_rebase p (root_path fs)).

(** [fs_full_path] (fs.c 102-139). *)
Fixpoint fs_full_path_aux (n : nat) (filename : string) (base_dir_name : option string) : path :=
  let p := path_new filename in
  if path_is_rooted p then p
  else
    let base_path :=
      match base_dir_name, n with
      | Some b, S n' => Some (path_to_dir (fs_full_path_aux n' b None))
      | _, _ => None
      end in
    let prefix := if Nat.ltb 0 (path_num_hops p) then path_hop p 0 else "" in
    let is_prefix := match prefix with
                     | String c EmptyString =>
                         Ascii.eqb c "@" || Ascii.eqb c "#" || Ascii.eqb c "~" || Ascii.eqb c "$"
                     | _ => false
                     end in
    let '(p1, prefix1) :=
      if is_prefix then (p, prefix)
      else
        let p' := match base_path with
                  | Some b => path_rebase p b
                  | None => path_insert_hop p 0 "$"
                  end in
        (p', path_hop p' 0) in
    path_insert_hop (path_collapse (path_remove_hop p1 0)) 0 prefix1.

Definition fs_full_path (filename : string) (base_dir_name : option string) : path :=
  fs_full_path_aux 1 filename base_dir_name.


(** Spec-side reading of spec 4.2 (steps 3-4), used to state claim C1:
    the root selected by the first hop ... *)
Definition is_prefix_hop (h : string) : bool :=
  String.eqb h "$" || String.eqb h "@" || String.eqb h "#" || String.eqb h "~".

Definition selected_root (fs : fs_t) (p : path) : option path :=
  match hops p with
  | h :: _ =>
      if String.eqb h "$" then Some (root_path fs)
      else if String.eqb h "@" then Some (game_path fs)
      else if String.eqb h "#" then Some (system_path fs)
      else if String.eqb h "~" then user_path fs
      else Some (root_path fs)
  | [] => Some (root_path fs)
  end.

(** ... and the remainder left once a known prefix hop is stripped. *)
Definition remainder (p : path) : list string :=
  match hops p with
  | h :: rest => if is_prefix_hop h then rest else h :: rest
  | [] => []
  end.

(** A hop list climbs above its root when, once collapsed, it still
    starts with [..]. *)
Definition escapes (hs : list string) : bool :=
  match rev (collapse_rev [] hs) with
  | ".." :: _ => true
  | _ => false
  end.

(** A real path lies in the sandbox of [root]. *)
Definition within (root r : path) : Prop :=
  exists rem, hops r = hops (path_to_dir root) ++ rem /\ escapes rem = false.

(** An example configuration: no user root. *)
Definition fs_example : fs_t :=
  mkfs (path_new_dir "/src") (path_new_dir "/out") (path_new_dir "/sys") None.

End SphereFS.
Import SphereFS.

(* ===================================================================== *)
(** ** Visor and file store *)
(* ===================================================================== *)

Module World.

Inductive msg_kind := MsgError | MsgWarn | MsgPrint.

(** Modelled from the spec: the visor ([visor.c] is not part of the
    sources; spec 4.4 and 6): a stack of operation scopes, error and
    warning counters, the emitted messages and the artifact list. *)
Record visor_t := mkvisor {
  v_ops : list string;
  v_errors : nat;
  v_warns : nat;
  v_log : list (msg_kind * string);
  v_filenames : list string;
}.

Definition visor_new : visor_t := mkvisor [] 0 0 [] [].

(** A file on disk: its bytes and its modification time. *)
Record file_t := mkfile { contents : string; mtime : Z }.

(** Everything the build touches: the visor, the files reached through
    SphereFS (keyed by the path string handed to the [fs_*] calls), the
    directories created, and the clock used by [utime(..., NULL)]. *)
Record world := mkworld {
  w_visor : visor_t;
  w_files : gmap string file_t;
  w_dirs : list string;
  w_now : Z;
}.

Definition set_visor (w : world) (v : visor_t) : world :=
  mkworld v (w_files w) (w_dirs w) (w_now w).
Definition set_files (w : world) (fs : gmap string file_t) : world :=
  mkworld (w_visor w) fs (w_dirs w) (w_now w).

Definition visor_begin_op (w : world) (op : string) : world :=
  let v := w_visor w in
  set_visor w (mkvisor (op :: v_ops v) (v_errors v) (v_warns v) (v_log v) (v_filenames v)).
Definition visor_end_op (w : world) : world :=
  let v := w_visor w in
  set_visor w (mkvisor (tl (v_ops v)) (v_errors v) (v_warns v) (v_log v) (v_filenames v)).
Definition visor_error (w : world) (msg : string) : world :=
  let v := w_visor w in
  set_visor w (mkvisor (v_ops v) (S (v_errors v)) (v_warns v)
                       (v_log v ++ [(MsgError, msg)]) (v_filenames v)).
Definition visor_warn (w : world) (msg : string) : world :=
  let v := w_visor w in
  set_visor w (mkvisor (v_ops v) (v_errors v) (S (v_warns v))
                       (v_log v ++ [(MsgWarn, msg)]) (v_filenames v)).
Definition visor_print (w : world) (msg : string) : world :=
  let v := w_visor w in
  set_visor w (mkvisor (v_ops v) (v_errors v) (v_warns v)
                       (v_log v ++ [(MsgPrint, msg)]) (v_filenames v)).
Definition visor_num_errors (w : world) : nat := v_errors (w_visor w).
Definition visor_num_warns (w : world) : nat := v_warns (w_visor w).

(** [fs_stat]: the modification time, or failure. *)
Definition fs_stat (w : world) (filename : string) : option Z :=
  mtime <$> w_files w !! filename.
Definition fs_fexist (w : world) (filename : string) : bool :=
  bool_decide (is_Some (w_files w !! filename)).
Definition fs_fslurp (w : world) (filename : string) : option string :=
  contents <$> w_files w !! filename.
(** [fs_unlink]: a missing file makes [unlink] fail and changes nothing. *)
Definition fs_unlink (w : world) (filename : string) : world :=
  set_files w (delete filename (w_files w)).
Definition fs_mkdir (w : world) (dirname : string) : world :=
  mkworld (w_visor w) (w_files w) (dirname :: w_dirs w) (w_now w).
(** [fs_fspew]: write a whole file, stamped with the current time. *)
Definition fs_fspew (w : world) (filename data : string) : world :=
  set_files w (<[filename := mkfile data (w_now w)]> (w_files w)).
(** [fs_utime(fs, name, NULL)]: set the mtime to the current time. *)
Definition fs_utime_now (w : world) (filename : string) : option world :=
  match w_files w !! filename with
  | Some f => Some (set_files w (<[filename := mkfile (contents f) (w_now w)]> (w_files w)))
  | None => None
  end.

(** [fs_fcopy(fs, dest, src, overwrite)] (fs.c 158-176): create the
    directory of [dest], then [tinydir_copy(src, dest, !overwrite)], a
    byte copy that fails when [src] is missing, or when [dest] exists
    and overwriting was not asked for.  Returns the new world on 0. *)
Definition fs_fcopy (w : world) (destination source : string) (overwrite : bool)
  : option world :=
  let w1 := fs_mkdir w (path_cstr (path_strip (path_new destination))) in
  match w_files w1 !! source with
  | None => None
  | Some f =>
      if negb overwrite && bool_decide (is_Some (w_files w1 !! destination)) then None
      else Some (set_files w1 (<[destination := mkfile (contents f) (w_now w1)]> (w_files w1)))
  end.

End World.
Import World.

(* ===================================================================== *)
(** ** Tools ([tool.c]) *)
(* ===================================================================== *)

Module Tool.

(** The outcome of a guarded call into a JavaScript callback: the world
    it leaves behind and, when it threw, the stringified exception with
    its [fileName] and [lineNumber]. *)
Record js_error := mkjserr { err_message : string; err_file : string; err_line : Z }.

(** [struct tool]: a verb and the JavaScript callback it wraps, called
    as [callback(out_path, in_paths)]. *)
Record tool_t := mktool {
  verb : string;
  callback : string -> list string -> world -> world * option js_error;
}.

(** The first steps of [tool_run] (tool.c 105-113): open the visor
    operation and create the directory of the output. *)
Definition tool_pre_world (t : tool_t) (w : world) (out_path : path) : world :=
  let w1 := visor_begin_op w
              (String.append (verb t) (String.append " '" (String.append (path_cstr out_path) "'"))) in
  fs_mkdir w1 (path_cstr (path_strip out_path)).

(** [tool_run] (tool.c 83-161); [None] is a [NULL] tool. *)
Definition tool_run (tool : option tool_t) (w : world) (out_path : path)
    (in_paths : list path) : bool * world :=
  match tool with
  | None => (true, w)
  | Some t =>
      let out := path_cstr out_path in
      let w2 := tool_pre_world t w out_path in
      let last_mtime := match fs_stat w2 out with Some m => m | None => 0%Z end in
      let num_errors := visor_num_errors w2 in
      let '(w3, exn) := callback t out (map path_cstr in_paths) w2 in
      let '(w4, ok1) :=
        match exn with
        | Some e =>
            (visor_print (visor_error w3 (err_message e)) "@ [fileName:lineNumber]", false)
        | None => (w3, true)
        end in
      let ok2 := ok1 && negb (Nat.ltb num_errors (visor_num_errors w4)) in
      let '(w5, ok) :=
        if ok2 then
          match fs_stat w4 out with
          | None => (visor_error w4 "target file not found after build", false)
          | Some m =>
              if Z.eqb m last_mtime
              then (visor_warn w4 "target file unchanged after build", true)
              else (w4, true)
          end
        else (fs_unlink w4 out, false) in
      (ok, visor_end_op w5)
  end.

End Tool.
Import Tool.

(* ===================================================================== *)
(** ** The install tool and FileStream ([build.c]) *)
(* ===================================================================== *)

Module Install.

(** [install_target] (build.c 720-743), the install tool's callback,
    called with [(target_path, [source_path])]: copy with overwrite,
    then, when the copy succeeded, touch the target.  [inl b] is the
    boolean the callback returns; [duk_require_string] throws a
    TypeError when there is no source. *)
Definition install_target (target_path : string) (sources : list string) (w : world)
  : (bool + js_error) * world :=
  match sources with
  | [] => (inr (mkjserr "TypeError: string required, found undefined" "" 0), w)
  | source_path :: _ =>
      match fs_fcopy w target_path source_path true with
      | Some w1 =>
          match fs_utime_now w1 target_path with
          | Some w2 => (inl true, w2)
          | None => (inl true, w1)
          end
      | None => (inl false, w)
      end
  end.

(** The Tool stored as [installTool] in the stash (build.c 218-223):
    verb "installing", callback [install_target]; the value the callback
    returns is discarded by [tool_run]. *)
Definition install_tool : tool_t :=
  mktool "installing"
    (fun out ins w =>
       let '(r, w1) := install_target out ins w in
       match r with inl _ => (w1, None) | inr e => (w1, Some e) end).

End Install.
Import Install.

Module FileStream.

(** [enum file_op]. *)
Definition FILE_OP_READ : Z := 0.
Definition FILE_OP_WRITE : Z := 1.
Definition FILE_OP_UPDATE : Z := 2.
Definition FILE_OP_MAX : Z := 3.

(** An open [FILE*]: its name, [fopen] mode and position. *)
Record stream := mkstream { s_name : string; s_mode : string; s_pos : nat }.

(** [fopen] through [fs_fopen] for the three modes the code uses:
    ["rb"] and ["r+b"] need an existing file; ["w+b"] creates or
    truncates it. *)
Definition fs_fopen (w : world) (filename mode : string) : option (stream * world) :=
  if String.eqb mode "w+b" then
    Some (mkstream filename mode 0, set_files w (<[filename := mkfile "" (w_now w)]> (w_files w)))
  else
    match w_files w !! filename with
    | Some _ => Some (mkstream filename mode 0, w)
    | None => None
    end.

(** The JavaScript errors [js_new_FileStream] can raise. *)
Inductive fs_error := RangeError (msg : string) | OpenError (msg : string).

(** [js_new_FileStream] (build.c 1445-1477), past the constructor-call
    and argument type checks; [filename] is the canonical pathname. *)
Definition js_new_FileStream (w : world) (filename : string) (op : Z)
  : (stream * world) + fs_error :=
  if (op <? 0)%Z || (op >=? FILE_OP_MAX)%Z then inr (RangeError "invalid file-op constant")
  else
    let file_op :=
      if Z.eqb op FILE_OP_UPDATE && negb (fs_fexist w filename) then FILE_OP_WRITE else op in
    let mode :=
      if Z.eqb file_op FILE_OP_READ then "rb"
      else if Z.eqb file_op FILE_OP_WRITE then "w+b"
      else "r+b" in
    match fs_fopen w filename mode with
    | None => inr (OpenError "couldn't open file")
    | Some (s, w1) =>
        if Z.eqb file_op FILE_OP_UPDATE then
          (* fseek(file, 0, SEEK_END) *)
          let size := match w_files w1 !! filename with
                      | Some f => String.length (contents f) | None => 0 end in
          inl (mkstream (s_name s) (s_mode s) size, w1)
        else inl (s, w1)
    end.

End FileStream.
Import FileStream.

(* ===================================================================== *)
(** ** The build driver ([build.c]) *)
(* ===================================================================== *)

Module Build.

(** Decimal rendering, as [printf("%d")] does. *)
Fixpoint digits_aux (fuel n : nat) (acc : string) : string :=
  match fuel with
  | O => acc
  | S f =>
      let acc' := String (ascii_of_nat (48 + n mod 10)) acc in
      if Nat.ltb n 10 then acc' else digits_aux f (n / 10) acc'
  end.
Definition string_of_nat (n : nat) : string := digits_aux (S n) n "".
Definition string_of_Z (z : Z) : string :=
  if (z <? 0)%Z then String.append "-" (string_of_nat (Z.to_nat (- z)))
  else string_of_nat (Z.to_nat z).

Notation "a +++ b" := (String.append a b) (at level 60, right associativity).

(* --------------------------------------------------------------------- *)
(** *** Conflict detection (build.c 369-393) *)

(** [vector_sort(sorted_targets, sort_targets_by_path)]: [qsort] with
    [strcmp] on the output paths.  Only the sorted sequence of path
    strings matters to the scan below, so any sorting algorithm gives
    the same result; this is an insertion sort on [String.compare]
    (byte-wise, as [strcmp]). *)
Fixpoint insert_sorted (x : string) (l : list string) : list string :=
  match l with
  | [] => [x]
  | y :: rest =>
      match String.compare x y with
      | Gt => y :: insert_sorted x rest
      | _ => x :: y :: rest
      end
  end.
Fixpoint sort_paths (l : list string) : list string :=
  match l with
  | [] => []
  | x :: rest => insert_sorted x (sort_paths rest)
  end.

Definition conflict_msg (num_matches : nat) (filename : string) : string :=
  string_of_nat num_matches +++ "-way conflict '" +++ filename +++ "'".

(** The loop of build.c 375-386: [last_filename], [num_matches] and
    [filename] are threaded through; the result also holds the final
    [num_matches] and [filename] read by the check after the loop. *)
Fixpoint conflict_scan (w : world) (last_filename : string) (num_matches : nat)
    (filename : string) (l : list string) : world * nat * string :=
  match l with
  | [] => (w, num_matches, filename)
  | f :: rest =>
      if String.eqb f last_filename then conflict_scan w f (S num_matches) f rest
      else
        let w' := if Nat.ltb 1 num_matches then visor_error w (conflict_msg num_matches f) else w in
        conflict_scan w' f 1 f rest
  end.

(** Modelled from the spec: a target ([target.c] is not part of the
    sources), as far as [build_run] reads it: its name, output path and
    the path of its (first) source. *)
Record target_t := mktarget {
  target_name : path;
  target_path : path;
  target_source_path : option path;
}.

(** The conflict check of [build_run] (build.c 372-389), starting with
    [visor_begin_op(visor, "building targets")]. *)
Definition conflict_check (w : world) (targets : list target_t) : world :=
  let w0 := visor_begin_op w "building targets" in
  let sorted := sort_paths (map (fun t => path_cstr (target_path t)) targets) in
  let '(w1, num_matches, filename) := conflict_scan w0 "" 1 "" sorted in
  if Nat.ltb 1 num_matches then visor_error w1 (conflict_msg num_matches filename) else w1.

(* --------------------------------------------------------------------- *)
(** *** [sscanf(s, "%dx%d", &width, &height)] *)

Definition is_space (c : ascii) : bool :=
  let n := nat_of_ascii c in
  Nat.eqb n 32 || (Nat.leb 9 n && Nat.leb n 13).
Definition is_digit (c : ascii) : bool :=
  let n := nat_of_ascii c in Nat.leb 48 n && Nat.leb n 57.

Fixpoint skip_space (s : string) : string :=
  match s with
  | String c rest => if is_space c then skip_space rest else s
  | EmptyString => s
  end.

(** Digits read by [%d]: the value, how many, and the rest. *)
Fixpoint read_digits (s : string) (acc : Z) (n : nat) : Z * nat * string :=
  match s with
  | String c rest =>
      if is_digit c
      then read_digits rest (acc * 10 + Z.of_nat (nat_of_ascii c - 48))%Z (S n)
      else (acc, n, s)
  | EmptyString => (acc, n, s)
  end.

(** One [%d] conversion: leading white space, an optional sign and at
    least one digit.  (Overflow, undefined in C, is not modelled.) *)
Definition scan_int (s : string) : option (Z * string) :=
  let s1 := skip_space s in
  let '(sign, s2) :=
    match s1 with
    | String c rest =>
        if Ascii.eqb c "-"%char then ((-1)%Z, rest)
        else if Ascii.eqb c "+"%char then (1%Z, rest) else (1%Z, s1)
    | EmptyString => (1%Z, s1)
    end in
  let '(v, n, rest) := read_digits s2 0 0 in
  if Nat.eqb n 0 then None else Some ((sign * v)%Z, rest).

(** [Some (width, height)] exactly when [sscanf] returns 2. *)
Definition sscanf_dxd (s : string) : option (Z * Z) :=
  match scan_int s with
  | Some (w, String c rest) =>
      if Ascii.eqb c "x"%char then
        match scan_int rest with
        | Some (h, _) => Some (w, h)
        | None => None
        end
      else None
  | _ => None
  end.


(* --------------------------------------------------------------------- *)
(** *** JavaScript values, the game descriptor and JSON *)

(** The JavaScript values the descriptor's fields can hold. *)
Inductive jsval :=
  | JUndefined | JNull | JBool (b : bool) | JNumber (z : Z) | JString (s : string)
  | JObject.

(** The descriptor object of the stash: its own properties in insertion
    order (the order [duk_json_encode] writes them in). *)
Definition descriptor := list (string * jsval).

Definition get_prop (d : descriptor) (k : string) : jsval :=
  match List.find (fun kv => String.eqb (fst kv) k) d with
  | Some (_, v) => v
  | None => JUndefined
  end.

Fixpoint put_prop (d : descriptor) (k : string) (v : jsval) : descriptor :=
  match d with
  | [] => [(k, v)]
  | (k', v') :: rest =>
      if String.eqb k' k then (k, v) :: rest else (k', v') :: put_prop rest k v
  end.

(** The double-quote and newline characters. *)
Definition dq : string := String (ascii_of_nat 34) EmptyString.
Definition nl : string := String (ascii_of_nat 10) EmptyString.

Definition quote (s : string) : string := dq +++ s +++ dq.

Definition json_value (v : jsval) : option string :=
  match v with
  | JUndefined => None
  | JNull => Some "null"
  | JBool b => Some (if b then "true" else "false")
  | JNumber z => Some (string_of_Z z)
  | JString s => Some (quote s)
  | JObject => Some "{}"
  end.

Fixpoint json_members (d : descriptor) : list string :=
  match d with
  | [] => []
  | (k, v) :: rest =>
      match json_value v with
      | Some j => (quote k +++ ":" +++ j) :: json_members rest
      | None => json_members rest
      end
  end.

(** [duk_json_encode] of an object (string escapes are not modelled). *)
Definition json_object (d : descriptor) : string :=
  "{" +++ String.concat "," (json_members d) +++ "}".
Definition json_string_array (l : list string) : string :=
  "[" +++ String.concat "," (map quote l) +++ "]".

(* --------------------------------------------------------------------- *)
(** *** [write_manifests] (build.c 859-960) *)

(** Modelled from the spec (4.1): [path_relativize(path, base)] drops
    the hops shared with the directory [base] and climbs out of the
    rest of [base] with [..] hops. *)
Fixpoint relativize_hops (hs bs : list string) : list string :=
  match hs, bs with
  | h :: hs', b :: bs' =>
      if String.eqb h b then relativize_hops hs' bs' else map (fun _ => "..") bs ++ hs
  | _, _ => map (fun _ => "..") bs ++ hs
  end.
Definition path_relativize (p base : path) : path :=
  mkpath (relativize_hops (hops p) (hops base)) (fname p).

(** [fs_relative_path] (fs.c 141-156). *)
Definition fs_relative_path (filename base_dir_name : string) : path :=
  let p := fs_full_path filename None in
  if path_is_rooted p then p
  else
    let base_path := path_to_dir (fs_full_path base_dir_name None) in
    if path_hop_is p 0 (path_hop base_path 0) then path_relativize p base_path else p.

(** The text of [game.sgm] as the [fprintf] calls write it. *)
Definition sgm_text (name author summary : string) (width height : Z) (script : string)
  : string :=
  "name=" +++ name +++ nl
  +++ "author=" +++ author +++ nl
  +++ "description=" +++ summary +++ nl
  +++ "screen_width=" +++ string_of_Z width +++ nl
  +++ "screen_height=" +++ string_of_Z height +++ nl
  +++ "script=" +++ script +++ nl.

(** One descriptor field read as a string (build.c 879-897): its value,
    or the placeholder, with the warning the code emits for it ([None]
    where it emits none). *)
Definition string_field (w : world) (v : jsval) (placeholder : string)
    (warning : option string) : string * world :=
  match v with
  | JString s => (s, w)
  | _ => (placeholder, match warning with Some m => visor_warn w m | None => w end)
  end.

(** [write_manifests]: the result, the world, and the descriptor (its
    [main] normalised when the manifests were written). *)
Definition write_manifests (w : world) (desc : descriptor) : bool * world * descriptor :=
  let w0 := visor_begin_op w "writing Sphere manifest files" in
  let '(name, w1) :=
    string_field w0 (get_prop desc "name") "Untitled" (Some "missing or invalid 'name' field") in
  let '(author, w2) :=
    string_field w1 (get_prop desc "author") "Author Unknown"
      (Some "missing or invalid 'author' field") in
  let '(summary, _) := string_field w2 (get_prop desc "summary") "No summary provided." None in
  let fail w' msg := (false, visor_end_op (visor_error w' msg), desc) in
  match match get_prop desc "resolution" with
        | JString r => sscanf_dxd r
        | _ => None
        end with
  | None => fail w2 "missing or invalid 'resolution' field"
  | Some (width, height) =>
      match get_prop desc "main" with
      | JString m =>
          let main_path := fs_full_path m (Some "@/") in
          if negb (path_hop_is main_path 0 "@") then
            fail w2 ("'main': illegal prefix '" +++ path_hop main_path 0 +++ "/' in filename")
          else if negb (fs_fexist w2 (path_cstr main_path)) then
            fail w2 ("'main': file not found '" +++ path_cstr main_path +++ "'")
          else
            let desc' := put_prop desc "main" (JString (path_cstr main_path)) in
            let script_path := fs_relative_path (path_cstr main_path) "@/scripts" in
            let w3 := fs_fspew w2 "@/game.sgm"
                        (sgm_text name author summary width height (path_cstr script_path)) in
            let w4 := fs_fspew w3 "@/game.json" (json_object desc') in
            (true, visor_end_op w4, desc')
      | _ => fail w2 "missing or invalid 'main' field"
      end
  end.

(* --------------------------------------------------------------------- *)
(** *** [clean_old_artifacts] (build.c 465-492) and [build_run] (353-463) *)

(** [struct build], as far as [build_run] reads it. *)
Record build_t := mkbuild {
  b_artifacts : list string;
  b_targets : list target_t;
  b_descriptor : descriptor;
}.

Definition clean_old_artifacts (b : build_t) (w : world) (keep_targets : bool) : world :=
  let w0 := visor_begin_op w "cleaning up old build artifacts" in
  let filenames := v_filenames (w_visor w0) in
  let w1 :=
    fold_left
      (fun w' a =>
         let keep_file := keep_targets && existsb (fun f => String.eqb f a) filenames in
         if keep_file then w'
         else visor_end_op (fs_unlink (visor_begin_op w' ("removing '" +++ a +++ "'")) a))
      (b_artifacts b) w0 in
  visor_end_op w1.

Definition is_game_target (t : target_t) : bool :=
  negb (Nat.eqb (path_num_hops (target_path t)) 0) && path_hop_is (target_path t) 0 "@".

(** The source map [{"fileMap": {...}}] of build.c 426-440. *)
Definition source_map_json (targets : list target_t) : string :=
  let entries :=
    flat_map (fun t =>
                if is_game_target t then
                  match target_source_path t with
                  | Some sp => [quote (path_cstr (target_path t)) +++ ":" +++ quote (path_cstr sp)]
                  | None => []
                  end
                else []) targets in
  "{" +++ quote "fileMap" +++ ":{" +++ String.concat "," entries +++ "}}".

Section BuildRun.

(** Modelled from the spec: [target_build] ([target.c] is not part of the
    sources; spec 4.8) is a parameter of the driver. *)
Variable target_build : target_t -> bool -> world -> world.

Definition build_run (b : build_t) (w : world) (want_debug rebuild_all : bool)
  : bool * world :=
  let finished w' := (Nat.eqb (visor_num_errors w') 0, w') in
  let w1 := conflict_check w (b_targets b) in
  if Nat.ltb 0 (visor_num_errors w1) then finished (visor_end_op w1)
  else
    let w2 := fold_left (fun w' t => if is_game_target t then target_build t rebuild_all w' else w')
                (b_targets b) w1 in
    let w3 := visor_end_op w2 in
    if Nat.eqb (visor_num_errors w3) 0 then
      let w4 := clean_old_artifacts b w3 true in
      let '(ok, w5, _) := write_manifests w4 (b_descriptor b) in
      if negb ok then finished (fs_unlink (fs_unlink w5 "@/game.json") "@/game.sgm")
      else
        let w6 :=
          if want_debug
          then visor_end_op (fs_fspew (visor_begin_op w5 "writing source map")
                               "@/sources.json" (source_map_json (b_targets b)))
          else fs_unlink w5 "@/sources.json" in
        let w7 := fs_fspew w6 "@/artifacts.json" (json_string_array (v_filenames (w_visor w6))) in
        finished w7
    else finished (fs_unlink (fs_unlink w3 "@/game.json") "@/game.sgm").

End BuildRun.

End Build.
Import Build.

(* ===================================================================== *)
(** ** The CommonJS loader ([build.c]) *)
(* ===================================================================== *)

Module Loader.

(** What the loader can do with a file, as far as the cache is
    concerned: a JSON file decodes to a value (or fails to), a script
    compiles (directly or after transpiling) or not, and a compiled
    script runs a body of statements. *)
Inductive instr :=
  | IRequire (filename : string)     (* [require(...)] of a module with this canonical name *)
  | ITryRequire (filename : string)  (* the same inside [try { } catch { }] *)
  | ISetExports (v : nat)            (* [module.exports = <object v>] *)
  | IThrow.                          (* [throw ...] *)

Inductive source :=
  | SrcJson (decoded : option nat)
  | SrcScript (compiles : bool) (body : list instr).

(** A module object: [module.exports] (an object reference),
    [module.loaded] and [module.id]. *)
Record modrec := mkmod { m_exports : nat; m_loaded : bool; m_id : string }.

(** The loader's state: the stash's [moduleCache] (filename to module
    object), the heap of module objects, the next fresh object
    reference, and the trace of module bodies run (most recent first). *)
Record lstate := mkls {
  cache : gmap string nat;
  heap : gmap nat modrec;
  next_id : nat;
  runs : list string;
}.

Inductive result := Ok (exports : nat) | Threw.

Definition exports_of (st : lstate) (mid : nat) : nat :=
  match heap st !! mid with Some m => m_exports m | None => 0 end.

Definition set_module (st : lstate) (mid : nat) (f : modrec -> modrec) : lstate :=
  mkls (cache st) (alter f mid (heap st)) (next_id st) (runs st).

Section Eval.

Variable srcs : string -> source.

(** Running a compiled module body (the [duk_pcall] of build.c
    625-630) for the module object [mid]; [ev] evaluates a nested
    [require], and a [throw] that nothing catches ends the body. *)
Fixpoint exec_body (ev : lstate -> string -> option (lstate * result)) (mid : nat)
    (body : list instr) (st : lstate) : option (lstate * bool) :=
  match body with
  | [] => Some (st, true)
  | IRequire g :: rest =>
      match ev st g with
      | None => None
      | Some (st', Ok _) => exec_body ev mid rest st'
      | Some (st', Threw) => Some (st', false)
      end
  | ITryRequire g :: rest =>
      match ev st g with
      | None => None
      | Some (st', _) => exec_body ev mid rest st'
      end
  | ISetExports v :: rest =>
      exec_body ev mid rest (set_module st mid (fun m => mkmod v (m_loaded m) (m_id m)))
  | IThrow :: _ => Some (st, false)
  end.

(** [eval_cjs_module] (build.c 494-656).  The C function recurses
    through [require] without a bound; [fuel] bounds that depth here and
    [None] means it ran out, which is not an outcome of the code. *)
Fixpoint eval_cjs_module (fuel : nat) (st : lstate) (filename : string)
  : option (lstate * result) :=
  match fuel with
  | O => None
  | S fuel' =>
      match cache st !! filename with
      | Some mid => Some (st, Ok (exports_of st mid))   (* have_module *)
      | None =>
          let mid := next_id st in
          (* construct the module object, cache it in advance *)
          let st1 := mkls (<[filename := mid]> (cache st))
                          (<[mid := mkmod (S mid) false filename]> (heap st))
                          (S (S mid)) (runs st) in
          let on_error st' :=
            Some (mkls (delete filename (cache st')) (heap st') (next_id st') (runs st'), Threw) in
          let loaded st' :=
            let st'' := set_module st' mid (fun m => mkmod (m_exports m) true (m_id m)) in
            Some (st'', Ok (exports_of st'' mid)) in
          match srcs filename with
          | SrcJson None => on_error st1
          | SrcJson (Some v) => loaded (set_module st1 mid (fun m => mkmod v (m_loaded m) (m_id m)))
          | SrcScript false _ => on_error st1
          | SrcScript true body =>
              (* go, go, go! *)
              let st2 := mkls (cache st1) (heap st1) (next_id st1) (filename :: runs st1) in
              match exec_body (eval_cjs_module fuel') mid body st2 with
              | None => None
              | Some (st3, true) => loaded st3
              | Some (st3, false) => on_error st3
              end
          end
      end
  end.

(** [n] loads of the same file one after the other. *)
Fixpoint eval_n (fuel n : nat) (st : lstate) (filename : string)
  : option (lstate * list result) :=
  match n with
  | O => Some (st, [])
  | S n' =>
      match eval_cjs_module fuel st filename with
      | None => None
      | Some (st', r) =>
          match eval_n fuel n' st' filename with
          | None => None
          | Some (st'', rs) => Some (st'', r :: rs)
          end
      end
  end.

End Eval.

End Loader.
Import Loader.

Module Resolver.

Section Find.

(** [duk_json_pdecode], the engine's JSON decoder (an external
    collaborator): [None] when the text does not parse, otherwise the
    decoded object's own properties ([[]] for a value without any). *)
Variable json_decode : string -> option descriptor.

(** [load_package_json] (build.c 745-778). *)
Definition load_package_json (w : world) (filename : string) : option path :=
  match fs_fslurp w filename with
  | None => None
  | Some json =>
      match json_decode json with
      | None => None
      | Some obj =>
          match get_prop obj "main" with
          | JString main =>
              let p := path_collapse (path_append (path_strip (path_new filename)) main) in
              if fs_fexist w (path_cstr p) then Some p else None
          | _ => None
          end
      end
  end.

(** The candidate file names of [find_cjs_module], in table order. *)
Definition filenames (id : string) : list string :=
  [ id; id +++ ".mjs"; id +++ ".js"; id +++ ".json"; id +++ "/package.json";
    id +++ "/index.mjs"; id +++ "/index.js"; id +++ "/index.json" ].

Definition is_relative_id (id : string) : bool :=
  String.prefix "./" id || String.prefix "../" id.

Definition is_prefixed_id (id : string) : bool :=
  String.prefix "@/" id || String.prefix "$/" id || String.prefix "~/" id
  || String.prefix "#/" id.

(** The path [find_cjs_module] builds for one candidate file name. *)
Definition candidate_path (id : string) (origin : option string) (sys_origin : string)
    (filename : string) : path :=
  let origin_path :=
    if is_relative_id id
    then path_new (match origin with Some o => o | None => "./" end)
    else path_new_dir sys_origin in
  if is_prefixed_id id then fs_full_path filename None
  else path_collapse (path_append (path_strip origin_path) filename).

(** The loop of [find_cjs_module] (build.c 687-715). *)
Fixpoint find_loop (w : world) (id : string) (origin : option string) (sys_origin : string)
    (names : list string) : option path :=
  match names with
  | [] => None
  | filename :: rest =>
      let p := candidate_path id origin sys_origin filename in
      if fs_fexist w (path_cstr p) then
        if negb (String.eqb (path_filename p) "package.json") then Some p
        else
          match load_package_json w (path_cstr p) with
          | None => find_loop w id origin sys_origin rest
          | Some main_path =>
              if fs_fexist w (path_cstr main_path) then Some main_path
              else find_loop w id origin sys_origin rest
          end
      else find_loop w id origin sys_origin rest
  end.

(** [find_cjs_module] (build.c 658-718). *)
Definition find_cjs_module (w : world) (id : string) (origin : option string)
    (sys_origin : string) : option path :=
  find_loop w id origin sys_origin (filenames id).

(** The errors [js_require] raises before loading. *)
Inductive require_error := TypeError (msg : string) | ReferenceError (msg : string).

Definition PATHS : list string := ["$/lib"; "#/cell_modules"; "#/runtime"].

(** The resolution part of [js_require] (build.c 1073-1106): the
    [parent_id] is the [id] property of the calling [require] function
    ([None] for the global one). *)
Definition js_require_resolve (w : world) (parent_id : option string) (id : string)
  : path + require_error :=
  if match parent_id with None => true | Some _ => false end && is_relative_id id then
    inr (TypeError "relative require not allowed in global code")
  else
    match List.fold_left
            (fun acc sys => match acc with
                            | Some p => Some p
                            | None => find_cjs_module w id parent_id sys
                            end) PATHS None with
    | Some p => inl p
    | None => inr (ReferenceError ("module not found '" +++ id +++ "'"))
    end.

(** The claim's reading of the search (spec 4.6): try the candidates
    in order and return the first that exists, except that the
    [<id>/package.json] candidate (the fifth) stands for the file its
    [main] field names, when that file exists. *)
Fixpoint spec_find_loop (w : world) (id : string) (origin : option string)
    (sys_origin : string) (i : nat) (names : list string) : option path :=
  match names with
  | [] => None
  | filename :: rest =>
      let p := candidate_path id origin sys_origin filename in
      if fs_fexist w (path_cstr p) then
        if negb (Nat.eqb i 4) then Some p
        else
          match load_package_json w (path_cstr p) with
          | Some main_path => Some main_path
          | None => spec_find_loop w id origin sys_origin (S i) rest
          end
      else spec_find_loop w id origin sys_origin (S i) rest
  end.

Definition spec_find (w : world) (id : string) (origin : option string) (sys_origin : string)
  : option path :=
  spec_find_loop w id origin sys_origin 0 (filenames id).

End Find.

End Resolver.
Import Resolver.

(* ===================================================================== *)
(** ** FileStream methods ([build.c]) *)
(* ===================================================================== *)

Module StreamOps.

(** The JavaScript errors the [FileStream] methods raise. *)
Inductive js_err := JSError (msg : string) | JSRangeError (msg : string).

(** The bytes of the stream's file as the stream sees them. *)
Definition file_data (w : world) (s : stream) : string :=
  match w_files w !! s_name s with Some f => contents f | None => "" end.

Definition set_pos (s : stream) (p : nat) : stream := mkstream (s_name s) (s_mode s) p.

(** [ftell], [fseek(SEEK_SET)] and [fseek(SEEK_END)]. *)
Definition ftell (s : stream) : nat := s_pos s.
Definition fseek_set (s : stream) (p : nat) : stream := set_pos s p.
Definition fseek_end (w : world) (s : stream) : stream :=
  set_pos s (String.length (file_data w s)).

(** [fread(buffer, 1, n, file)]: up to [n] bytes from the position on,
    fewer at the end of the file; the position moves past them. *)
Definition fread (w : world) (s : stream) (n : nat) : string * stream :=
  let d := substring (s_pos s) n (file_data w s) in
  (d, set_pos s (s_pos s + String.length d)).

Fixpoint nuls (n : nat) : string :=
  match n with O => EmptyString | S n' => String Ascii.zero (nuls n') end.

(** The file after writing [d] at position [p]: the bytes before [p]
    are kept, a gap past the old end reads as NUL bytes, [d] replaces
    what it covers, and the rest is kept. *)
Definition overwrite_at (c : string) (p : nat) (d : string) : string :=
  let c' := if Nat.ltb (String.length c) p then c +++ nuls (p - String.length c) else c in
  let e := p + String.length d in
  substring 0 p c' +++ d +++ substring e (String.length c' - e) c'.

(** [fwrite(data, 1, n, file)]: the count written; a stream opened
    ["rb"] writes nothing. *)
Definition fwrite (w : world) (s : stream) (d : string) : nat * stream * world :=
  if String.eqb (s_mode s) "rb" then (0, s, w)
  else
    let c := file_data w s in
    (String.length d, set_pos s (s_pos s + String.length d),
     set_files w (<[s_name s := mkfile (overwrite_at c (s_pos s) d) (w_now w)]> (w_files w))).

(** The stream an object holds: [None] once disposed. *)
Definition disposed_error : js_err := JSError "use of disposed object".

(** [FileStream#position] (build.c 1491-1502). *)
Definition js_FileStream_get_position (o : option stream) : Z + js_err :=
  match o with
  | None => inr disposed_error
  | Some s => inl (Z.of_nat (ftell s))
  end.


(** The range of a C [int]. *)
Definition INT_MIN : Z := (-2147483648)%Z.
Definition INT_MAX : Z := 2147483647%Z.

(** [duk_require_int] of a numeric argument: the value clamped to the
    range of [int]. *)
Definition duk_require_int (v : Z) : Z := Z.max INT_MIN (Z.min INT_MAX v).

(** Storing a [long] into an [int]: the two's complement wrap-around of
    the compiler, modulo 2^32. *)
Definition to_int (v : Z) : Z := ((v + 2 ^ 31) mod 2 ^ 32 - 2 ^ 31)%Z.

(** [FileStream#position = new_pos] (build.c 1521-1536). *)
Definition js_FileStream_set_position (o : option stream) (v : Z) : stream + js_err :=
  match o with
  | None => inr disposed_error
  | Some s =>
      let new_pos := duk_require_int v in
      if (new_pos <? 0)%Z then inr (JSRangeError "invalid file position")
      else inl (fseek_set s (Z.to_nat new_pos))
  end.

(** [FileStream#read([numBytes])] (build.c 1553-1587); [num] is the
    argument when one is given. The result is the value returned or the
    error raised, with the stream as the call leaves it. The failure of
    [duk_push_fixed_buffer] to allocate the buffer is not modelled. *)
Definition js_FileStream_read (w : world) (o : option stream) (num : option Z)
  : (string + js_err) * option stream :=
  match o with
  | None => (inr disposed_error, None)
  | Some s =>
      match num with
      | None =>
          (* read entire file back to front: [num_bytes] is an [int] *)
          let pos := ftell s in
          let s1 := fseek_end w s in
          let num_bytes := to_int (Z.of_nat (ftell s1)) in
          let s2 := fseek_set s1 0 in
          if (num_bytes <? 0)%Z then (inr (JSRangeError "invalid read size"), Some s2)
          else
            let '(d, s3) := fread w s2 (Z.to_nat num_bytes) in
            (* reset file position after whole-file read *)
            (inl d, Some (fseek_set s3 pos))
      | Some v =>
          let num_bytes := duk_require_int v in
          if (num_bytes <? 0)%Z then (inr (JSRangeError "invalid read size"), Some s)
          else
            let '(d, s3) := fread w s (Z.to_nat num_bytes) in
            (inl d, Some s3)
      end
  end.

(** [FileStream#write(data)] (build.c 1589-1604). *)
Definition js_FileStream_write (w : world) (o : option stream) (d : string)
  : (stream * world) + js_err :=
  match o with
  | None => inr disposed_error
  | Some s =>
      let '(n, s1, w1) := fwrite w s d in
      if Nat.eqb n (String.length d) then inl (s1, w1)
      else inr (JSError "failure to write to file")
  end.

End StreamOps.
Import StreamOps.

(* ===================================================================== *)
(** ** Directory cursors ([fs.c]) *)
(* ===================================================================== *)

Module Directory.

(** [struct directory]: the entry list ([None] until first used, or when
    [fs_list_dir] failed), the position and the directory's path. *)
Record directory := mkdirectory {
  d_entries : option (list path);
  d_position : Z;
  d_path : path;
}.

Section Cursor.

(** [fs_dir_exists] and [fs_list_dir] of the file system the cursor
    reads, at the time it reads it. *)
Variable fs_dir_exists : string -> bool.
Variable fs_list_dir : string -> option (list path).

(** [directory_open] (fs.c 388-400). *)
Definition directory_open (dirname : string) : option directory :=
  if fs_dir_exists dirname then Some (mkdirectory None 0 (path_new_dir dirname)) else None.

(** [directory_rewind] (fs.c 452-470): list the directory afresh. *)
Definition directory_rewind (it : directory) : directory :=
  mkdirectory (fs_list_dir (path_cstr (d_path it))) 0 (d_path it).

Definition ensure_entries (it : directory) : directory :=
  match d_entries it with None => directory_rewind it | Some _ => it end.

(** The functions below return [None] where the C code reads through a
    [NULL] vector (the listing failed) or outside the vector. *)

(** [directory_num_files] (fs.c 418-424). *)
Definition directory_num_files (it : directory) : option (Z * directory) :=
  let it1 := ensure_entries it in
  match d_entries it1 with
  | None => None
  | Some l => Some (Z.of_nat (List.length l), it1)
  end.

(** [directory_next] (fs.c 438-450). *)
Definition directory_next (it : directory) : option (option path * directory) :=
  let it1 := ensure_entries it in
  match d_entries it1 with
  | None => None
  | Some l =>
      if (d_position it1 >=? Z.of_nat (List.length l))%Z then Some (None, it1)
      else if (d_position it1 <? 0)%Z then None
      else
        Some (nth_error l (Z.to_nat (d_position it1)),
              mkdirectory (d_entries it1) (d_position it1 + 1) (d_path it1))
  end.

(** [directory_seek] (fs.c 472-482). *)
Definition directory_seek (it : directory) (position : Z) : option (bool * directory) :=
  let it1 := ensure_entries it in
  match d_entries it1 with
  | None => None
  | Some l =>
      if (position >? Z.of_nat (List.length l))%Z then Some (false, it1)
      else Some (true, mkdirectory (d_entries it1) position (d_path it1))
  end.

(** [n] calls of [directory_next], collecting what they return. *)
Fixpoint next_n (n : nat) (it : directory) : option (list (option path) * directory) :=
  match n with
  | O => Some ([], it)
  | S n' =>
      match directory_next it with
      | None => None
      | Some (e, it1) =>
          match next_n n' it1 with
          | None => None
          | Some (es, it2) => Some (e :: es, it2)
          end
      end
  end.

End Cursor.

End Directory.
Import Directory.

(* ===================================================================== *)
(** ** The FS API over the sandbox ([fs.c], [build.c]) *)
(* ===================================================================== *)

Module FSApi.

(** In this module the file store is keyed by the real path [resolve]
    gives, as the operating system sees it: two logical names that
    resolve to the same real path name the same file. *)
Definition real_name (fs : fs_t) (filename : string) : option string :=
  path_cstr <$> resolve fs filename.

(** [fs_unlink] (fs.c 356-370): [unlink] of the resolved name; [-1]
    on a sandbox violation or a missing file. *)
Definition fs_unlink_rc (fs : fs_t) (w : world) (filename : string) : Z * world :=
  match real_name fs filename with
  | None => ((-1)%Z, w)
  | Some r =>
      match w_files w !! r with
      | Some _ => (0%Z, set_files w (delete r (w_files w)))
      | None => ((-1)%Z, w)
      end
  end.

(** [fs_rename] (fs.c 302-323): [rename] of the resolved names; renaming
    a file onto itself changes nothing. *)
Definition fs_rename_rc (fs : fs_t) (w : world) (old_name new_name : string) : Z * world :=
  match real_name fs old_name, real_name fs new_name with
  | Some ro, Some rn =>
      match w_files w !! ro with
      | None => ((-1)%Z, w)
      | Some f =>
          if String.eqb ro rn then (0%Z, w)
          else (0%Z, set_files w (<[rn := f]> (delete ro (w_files w))))
      end
  | _, _ => ((-1)%Z, w)
  end.

(** [FS.deleteFile(filename)] (build.c 1300-1313): the error it raises,
    if any; [filename] is the value [duk_require_pathname] returned. *)
Definition js_FS_deleteFile (fs : fs_t) (w : world) (filename : string) : option string * world :=
  let '(rc, w1) := fs_unlink_rc fs w filename in
  (if Z.eqb rc 0 then Some "unable to delete file" else None, w1).

(** [FS.rename(name1, name2)] (build.c 1410-1425). *)
Definition js_FS_rename (fs : fs_t) (w : world) (name1 name2 : string) : option string * world :=
  let '(rc, w1) := fs_rename_rc fs w name1 name2 in
  (if Z.eqb rc 0 then Some "rename failed" else None, w1).

End FSApi.
Import FSApi.

(** [build_clean] (build.c 311-317). *)
Definition build_clean (b : build_t) (w : world) : bool * world :=
  let w1 := clean_old_artifacts b w false in
  (true, fs_unlink w1 "@/artifacts.json").

(* ===================================================================== *)
(** * Example configurations and auxiliary definitions *)
(* ===================================================================== *)

(** The mtime [tool_run] records before calling the tool (0 when the
    output is missing). *)
Definition pre_build_mtime (w : world) (out_path : path) : Z :=
  match fs_stat w (path_cstr out_path) with Some m => m | None => 0%Z end.

Definition empty_world : world := mkworld visor_new ∅ [] 0.

Definition target_at (s : string) : target_t := mktarget (path_new s) (path_new s) None.

Definition is_jstring (v : jsval) : bool := match v with JString _ => true | _ => false end.

(** A field's string value, or the given placeholder. *)
Definition string_or (v : jsval) (placeholder : string) : string :=
  match v with JString s => s | _ => placeholder end.

(** The claim's reading of a well-formed resolution: two non-empty runs
    of decimal digits around an [x], and nothing else. *)
Fixpoint all_digits (s : string) : bool :=
  match s with
  | EmptyString => true
  | String c rest => is_digit c && all_digits rest
  end.

Fixpoint split_at_x (s : string) : option (string * string) :=
  match s with
  | EmptyString => None
  | String c rest =>
      if Ascii.eqb c "x"%char then Some (EmptyString, rest)
      else match split_at_x rest with
           | Some (a, b) => Some (String c a, b)
           | None => None
           end
  end.

Definition resolution_strict (s : string) : bool :=
  match split_at_x s with
  | Some (a, b) =>
      negb (String.eqb a "") && all_digits a && negb (String.eqb b "") && all_digits b
  | None => false
  end.

Definition manifest_world : world :=
  mkworld visor_new (<["@/main.js" := mkfile "main" 5%Z]> ∅) [] 9.

Definition loose_descriptor : descriptor :=
  [("name", JString "Game"); ("author", JString "Me"); ("summary", JString "Fun");
   ("resolution", JString "320x240px"); ("main", JString "main.js")].

(** A tool whose callback writes its output. *)
Definition writer_tool : tool_t :=
  mktool "writing" (fun out _ w => (fs_fspew w out "data", None)).

Definition tool_world : world :=
  mkworld visor_new (<["@/o.txt" := mkfile "old" 1%Z]> ∅) [] 7.

(** The files [build_run] manages itself. *)
Definition manifest_files : list string := ["@/artifacts.json"; "@/game.json"; "@/game.sgm"].

(** A target build that records its output as an artifact and fails. *)
Definition failing_build (t : target_t) (_ : bool) (w : world) : world :=
  let v := w_visor w in
  visor_error
    (set_visor w (mkvisor (v_ops v) (v_errors v) (v_warns v) (v_log v)
                          (v_filenames v ++ [path_cstr (target_path t)])))
    "tool failed".

(** A previous build left [@/old.txt] and an artifact list naming it. *)
Definition stale_build : build_t := mkbuild ["@/old.txt"] [target_at "@/a.txt"] [].

Definition stale_world : world :=
  mkworld visor_new
    (<["@/artifacts.json" := mkfile (json_string_array ["@/old.txt"]) 1%Z]>
       (<["@/game.json" := mkfile "{}" 1%Z]> ∅)) [] 7.

(** What a load leaves of the state it started from: every cache entry
    stays, and the module bodies run meanwhile are all of modules that
    were not cached then. *)
Definition keeps (s0 s : lstate) : Prop :=
  (forall k m, cache s0 !! k = Some m -> cache s !! k = Some m) /\
  exists new, runs s = new ++ runs s0 /\ forall k, is_Some (cache s0 !! k) -> k ∉ new.

(** Two modules that require each other; [a.js] then sets its exports. *)
Definition loader_srcs (name : string) : source :=
  if String.eqb name "a.js" then SrcScript true [IRequire "b.js"; ISetExports 5]
  else if String.eqb name "b.js" then SrcScript true [IRequire "a.js"]
  else SrcJson None.

Definition loader_init : lstate := mkls ∅ ∅ 0 [].

Definition loader_final : lstate :=
  match eval_cjs_module loader_srcs 4 loader_init "a.js" with
  | Some (s, _) => s
  | None => loader_init
  end.

(** A package whose [package.json] names [index.js] as its main file,
    next to the requiring module [$/main.js]. *)
Definition pkg_desc : descriptor := [("main", JString "index.js")].

Definition pkg_text : string := json_object pkg_desc.

(** The decoder at the one text the example reads. *)
Definition pkg_decode (s : string) : option descriptor :=
  if String.eqb s pkg_text then Some pkg_desc else None.

Definition pkg_world : world :=
  mkworld visor_new
    (<["$/package.json" := mkfile pkg_text 1%Z]>
       (<["$/index.js" := mkfile "module.exports = 1;" 1%Z]>
          (<["$/main.js" := mkfile "require('./package.json');" 1%Z]> ∅))) [] 7.

(* ===================================================================== *)
(** * Properties *)
(* ===================================================================== *)

(* --------------------------------------------------------------------- *)
(** ** SphereFS resolution *)

Lemma path_hop_is_0 (p : path) (h : string) :
  path_hop_is p 0 h = match hops p with x :: _ => String.eqb x h | [] => false end.
Proof. unfold path_hop_is. destruct (hops p); reflexivity. Qed.

(** Claim C1 (as stated, refuted): [resolve] does not collapse [..]
    hops, so ["$/../secret"] resolves to [/src/../secret], a real path
    that climbs above the source root it selected. *)
Lemma resolve_climbs_above_root :
  resolve fs_example "$/../secret" = Some (mkpath [""; "src"; ".."] "secret") /\
  ~ (forall s r, resolve fs_example s = Some r ->
       exists root, selected_root fs_example (path_new s) = Some root /\ within root r).
Proof.
  split; [reflexivity |].
  intros H.
  destruct (H "$/../secret" (mkpath [""; "src"; ".."] "secret") eq_refl)
    as [root [Hroot [rem [Hh He]]]].
  vm_compute in Hroot. injection Hroot as <-.
  vm_compute in Hh. injection Hh as Hrem. subst rem.
  vm_compute in He. discriminate.
Qed.

(** Claim C1 (amended): [resolve] fails exactly on a platform-absolute
    path and on a [~] path with no user root; otherwise it strips a
    [$ @ # ~] first hop and rebases the remainder, uncollapsed, onto the
    root that hop selects (the source root for any other path). *)
Theorem resolve_rebases_uncollapsed (fs : fs_t) (s : string) :
  resolve fs s =
    if path_is_rooted (path_new s) then None
    else match selected_root fs (path_new s) with
         | None => None
         | Some root =>
             Some (mkpath (hops (path_to_dir root) ++ remainder (path_new s))
                          (fname (path_new s)))
         end.
Proof.
  unfold resolve, selected_root, remainder.
  destruct (path_is_rooted (path_new s)) eqn:Hr; [reflexivity |].
  rewrite !path_hop_is_0. unfold path_num_hops, path_rebase, path_remove_hop.
  destruct (path_new s) as [hs fn]; simpl.
  destruct hs as [| h t]; [simpl; rewrite app_nil_r; reflexivity |].
  simpl. unfold is_prefix_hop.
  destruct (String.eqb h "$"); [reflexivity |].
  destruct (String.eqb h "@"); [reflexivity |].
  destruct (String.eqb h "#"); [reflexivity |].
  destruct (String.eqb h "~"); simpl.
  - destruct (user_path fs); reflexivity.
  - reflexivity.
Qed.

(* --------------------------------------------------------------------- *)
(** ** Tools *)

(** Claim C9: [tool_run] with a [NULL] tool returns true at once and
    leaves everything (visor counters and scopes, files, directories)
    as it was. *)
Theorem tool_run_null (w : world) (out_path : path) (in_paths : list path) :
  tool_run None w out_path in_paths = (true, w).
Proof. reflexivity. Qed.

Lemma tool_pre_world_files (t : tool_t) (w : world) (out_path : path) :
  w_files (tool_pre_world t w out_path) = w_files w.
Proof. reflexivity. Qed.

Lemma tool_pre_world_errors (t : tool_t) (w : world) (out_path : path) :
  visor_num_errors (tool_pre_world t w out_path) = visor_num_errors w.
Proof. reflexivity. Qed.

(** Claim C2: for a tool whose callback, run on the world [tool_run]
    prepares, leaves [w3] and the exception [exn]: a [true] result
    means the callback did not throw, the error count did not grow
    during the call and the output exists afterwards; an output whose
    mtime still equals the pre-build mtime costs one warning and no
    error; and a [false] result leaves no output file behind. *)
Theorem tool_run_postconditions (t : tool_t) (w : world) (out_path : path)
    (in_paths : list path) (w3 : world) (exn : option js_error) :
  callback t (path_cstr out_path) (map path_cstr in_paths) (tool_pre_world t w out_path)
    = (w3, exn) ->
  let '(ok, w') := tool_run (Some t) w out_path in_paths in
  (ok = true ->
     exn = None /\ visor_num_errors w3 <= visor_num_errors w /\
     is_Some (fs_stat w' (path_cstr out_path))) /\
  (ok = true -> fs_stat w' (path_cstr out_path) = Some (pre_build_mtime w out_path) ->
     visor_num_warns w' = S (visor_num_warns w3) /\
     visor_num_errors w' = visor_num_errors w3) /\
  (ok = false -> w_files w' !! path_cstr out_path = None).
Proof.
  intros Hcb. unfold tool_run.
  fold (tool_pre_world t w out_path).
  rewrite Hcb.
  unfold pre_build_mtime, fs_stat. rewrite tool_pre_world_files, tool_pre_world_errors.
  destruct exn as [e |].
  - (* the callback threw: the output is unlinked *)
    simpl. split; [discriminate | split; [discriminate |]].
    intros _. apply lookup_delete_eq.
  - simpl.
    destruct (Nat.ltb (visor_num_errors w) (visor_num_errors w3)) eqn:Hlt; simpl.
    + split; [discriminate | split; [discriminate |]].
      intros _. apply lookup_delete_eq.
    + apply Nat.ltb_ge in Hlt.
      destruct (w_files w3 !! path_cstr out_path) as [f |] eqn:Hf; simpl.
      * destruct (Z.eqb (mtime f) _) eqn:Heq; simpl.
        -- split; [intros _; repeat split; [assumption | rewrite Hf; eexists; reflexivity] |].
           split; [intros _ _; split; reflexivity | discriminate].
        -- split; [intros _; repeat split; [assumption | rewrite Hf; eexists; reflexivity] |].
           split; [| discriminate].
           intros _ Hm. rewrite Hf in Hm. simpl in Hm. injection Hm as Hm.
           rewrite Hm, Z.eqb_refl in Heq. discriminate.
      * split; [discriminate | split; [discriminate |]].
        intros _. exact Hf.
Qed.

(* --------------------------------------------------------------------- *)
(** ** The install tool *)

(** Claim C7: when its source exists, the install tool's callback
    succeeds, leaving at the destination a byte copy of the source's
    contents stamped with the current time. *)
Theorem install_target_copies (w : world) (dest src : string) (f : file_t) :
  w_files w !! src = Some f ->
  exists w', install_target dest [src] w = (inl true, w') /\
             w_files w' !! dest = Some (mkfile (contents f) (w_now w)).
Proof.
  intros Hsrc. unfold install_target, fs_fcopy. simpl. rewrite Hsrc. simpl.
  unfold fs_utime_now. simpl. rewrite lookup_insert_eq.
  eexists. split; [reflexivity |]. simpl. apply lookup_insert_eq.
Qed.

(* --------------------------------------------------------------------- *)
(** ** FileStream *)


(* --------------------------------------------------------------------- *)
(** ** Conflict detection *)

(** Claim C3 (a defect): with two targets on ["@/x.txt"] and one on
    ["@/y.txt"], the one conflict is reported under the path that
    follows the run in sorted order: the message reads
    ["2-way conflict '@/y.txt'"], and no message names ["@/x.txt"]. *)
Theorem conflict_check_names_next_path :
  v_log (w_visor (conflict_check empty_world
                    [target_at "@/x.txt"; target_at "@/y.txt"; target_at "@/x.txt"]))
  = [(MsgError, "2-way conflict '@/y.txt'")].
Proof. vm_compute. reflexivity. Qed.

(* --------------------------------------------------------------------- *)
(** ** Manifest validation *)

(** Claim C8 (as stated, refuted): the resolution ["320x240px"] is not
    [width x height] with two decimal integers, yet [write_manifests]
    accepts it (read as 320 by 240) and writes both manifests with no
    error. *)
Lemma write_manifests_accepts_loose_resolution :
  resolution_strict "320x240px" = false /\
  sscanf_dxd "320x240px" = Some (320%Z, 240%Z) /\
  (let '(ok, w', _) := write_manifests manifest_world loose_descriptor in
   ok = true /\ visor_num_errors w' = 0 /\ is_Some (w_files w' !! "@/game.json")).
Proof. vm_compute. split; [reflexivity | split; [reflexivity |]]. split; [reflexivity |]. split; [reflexivity |]. eexists. reflexivity. Qed.

Lemma string_field_eq (w : world) (v : jsval) (d : string) (m : option string) :
  string_field w v d m =
    (string_or v d,
     if is_jstring v then w else match m with Some x => visor_warn w x | None => w end).
Proof. destruct v; reflexivity. Qed.

(** Claim C8 (amended): [write_manifests] warns about a missing or
    non-string [name] or [author]; it fails with exactly one error and
    writes no file unless [resolution] is a string from which
    [sscanf("%dx%d")] reads two integers and [main] is a string whose
    [@/]-relative full path keeps the [@] prefix and names an existing
    file; when it succeeds, it adds no error and writes [game.sgm] with
    the placeholders for the missing [name], [author] and [summary]. *)
Theorem write_manifests_validation (w : world) (desc : descriptor) :
  let '(ok, w', _) := write_manifests w desc in
  (is_jstring (get_prop desc "name") = false ->
     (MsgWarn, "missing or invalid 'name' field") ∈ v_log (w_visor w')) /\
  (is_jstring (get_prop desc "author") = false ->
     (MsgWarn, "missing or invalid 'author' field") ∈ v_log (w_visor w')) /\
  (ok = false ->
     visor_num_errors w' = S (visor_num_errors w) /\ w_files w' = w_files w) /\
  (ok = true ->
     visor_num_errors w' = visor_num_errors w /\
     exists r width height m script,
       get_prop desc "resolution" = JString r /\ sscanf_dxd r = Some (width, height) /\
       get_prop desc "main" = JString m /\
       path_hop_is (fs_full_path m (Some "@/")) 0 "@" = true /\
       fs_fexist w (path_cstr (fs_full_path m (Some "@/"))) = true /\
       w_files w' !! "@/game.sgm" =
         Some (mkfile (sgm_text (string_or (get_prop desc "name") "Untitled")
                                (string_or (get_prop desc "author") "Author Unknown")
                                (string_or (get_prop desc "summary") "No summary provided.")
                                width height script) (w_now w))).
Proof.
  unfold write_manifests. rewrite !string_field_eq.
  destruct (is_jstring (get_prop desc "name")) eqn:Hn;
  destruct (is_jstring (get_prop desc "author")) eqn:Ha;
  destruct (get_prop desc "resolution") as [| | | | r |] eqn:Hr; simpl;
  try (destruct (sscanf_dxd r) as [[width height] |] eqn:Hs); simpl;
  destruct (get_prop desc "main") as [| | | | m |] eqn:Hm; simpl;
  try (destruct (path_hop_is (fs_full_path m (Some "@/")) 0 "@") eqn:Hp); simpl;
  try (destruct (fs_fexist _ (path_cstr (fs_full_path m (Some "@/")))) eqn:He); simpl.
  all: repeat split; intros; try discriminate; try set_solver; try reflexivity.
  all: exists r, width, height, m,
         (path_cstr (fs_relative_path (path_cstr (fs_full_path m (Some "@/"))) "@/scripts")).
  all: repeat split; try assumption.
  all: rewrite lookup_insert_ne by discriminate; apply lookup_insert_eq.
Qed.

(* --------------------------------------------------------------------- *)
(** ** Witnesses *)

Lemma tool_run_postconditions_witness :
  callback writer_tool "@/o.txt" [] (tool_pre_world writer_tool tool_world (path_new "@/o.txt"))
    = (fs_fspew (tool_pre_world writer_tool tool_world (path_new "@/o.txt")) "@/o.txt" "data",
       None) /\
  (let '(ok, w') := tool_run (Some writer_tool) tool_world (path_new "@/o.txt") [] in
   (ok = true ->
      (None : option js_error) = None /\
      visor_num_errors (fs_fspew (tool_pre_world writer_tool tool_world (path_new "@/o.txt"))
                          "@/o.txt" "data") <= visor_num_errors tool_world /\
      is_Some (fs_stat w' (path_cstr (path_new "@/o.txt")))) /\
   (ok = true -> fs_stat w' (path_cstr (path_new "@/o.txt"))
                   = Some (pre_build_mtime tool_world (path_new "@/o.txt")) ->
      visor_num_warns w' =
        S (visor_num_warns (fs_fspew (tool_pre_world writer_tool tool_world (path_new "@/o.txt"))
                              "@/o.txt" "data")) /\
      visor_num_errors w' =
        visor_num_errors (fs_fspew (tool_pre_world writer_tool tool_world (path_new "@/o.txt"))
                            "@/o.txt" "data")) /\
   (ok = false -> w_files w' !! path_cstr (path_new "@/o.txt") = None)).
Proof.
  split; [reflexivity |].
  exact (tool_run_postconditions writer_tool tool_world (path_new "@/o.txt") [] _ None eq_refl).
Defined.

Lemma install_target_copies_witness :
  w_files tool_world !! "@/o.txt" = Some (mkfile "old" 1%Z) /\
  exists w', install_target "@/copy.txt" ["@/o.txt"] tool_world = (inl true, w') /\
             w_files w' !! "@/copy.txt" = Some (mkfile (contents (mkfile "old" 1%Z)) (w_now tool_world)).
Proof.
  split; [reflexivity |].
  exact (install_target_copies tool_world "@/copy.txt" "@/o.txt" (mkfile "old" 1%Z) eq_refl).
Defined.

(* --------------------------------------------------------------------- *)
(** ** The build driver on errors *)

Lemma conflict_scan_files (w : world) (last : string) (n : nat) (f : string) (l : list string) :
  w_files (conflict_scan w last n f l).1.1 = w_files w /\
  visor_num_errors w <= visor_num_errors (conflict_scan w last n f l).1.1.
Proof.
  revert w last n f. induction l as [| x l IH]; intros w last n f; simpl; [split; [reflexivity | lia] |].
  destruct (String.eqb x last); [apply IH |].
  destruct (Nat.ltb 1 n).
  - destruct (IH (visor_error w (conflict_msg n x)) x 1 x) as [H1 H2]. rewrite H1.
    unfold visor_num_errors in *. simpl in *. split; [reflexivity | lia].
  - exact (IH w x 1 x).
Qed.

Lemma conflict_check_files (w : world) (ts : list target_t) :
  w_files (conflict_check w ts) = w_files w.
Proof.
  unfold conflict_check.
  destruct (conflict_scan _ _ _ _ _) as [[w1 n] f] eqn:E.
  pose proof (conflict_scan_files (visor_begin_op w "building targets") "" 1 ""
                (sort_paths (map (fun t => path_cstr (target_path t)) ts))) as [H _].
  rewrite E in H. simpl in H.
  destruct (Nat.ltb 1 n); exact H.
Qed.

Lemma clean_old_artifacts_keeps (b : build_t) (w : world) (k : string) :
  k ∉ b_artifacts b ->
  w_files (clean_old_artifacts b w true) !! k = w_files w !! k /\
  visor_num_errors (clean_old_artifacts b w true) = visor_num_errors w.
Proof.
  intros Hk. unfold clean_old_artifacts.
  generalize (v_filenames (w_visor (visor_begin_op w "cleaning up old build artifacts"))).
  intros fl.
  assert (forall l (w0 : world), k ∉ l ->
            w_files (fold_left (fun w' a =>
               if true && existsb (fun f => String.eqb f a) fl then w'
               else visor_end_op (fs_unlink (visor_begin_op w' ("removing '" +++ a +++ "'")) a))
               l w0) !! k = w_files w0 !! k /\
            visor_num_errors (fold_left (fun w' a =>
               if true && existsb (fun f => String.eqb f a) fl then w'
               else visor_end_op (fs_unlink (visor_begin_op w' ("removing '" +++ a +++ "'")) a))
               l w0) = visor_num_errors w0) as Hfold.
  { induction l as [| a l IH]; intros w0 Hl; cbn [fold_left]; [split; reflexivity |].
    apply not_elem_of_cons in Hl as [Hka Hl].
    match goal with |- context [fold_left _ l ?w1] => destruct (IH w1 Hl) as [H1 H2] end.
    rewrite H1, H2.
    destruct (true && existsb _ fl); simpl; [split; reflexivity |].
    split; [apply lookup_delete_ne; congruence | reflexivity]. }
  destruct (Hfold (b_artifacts b) (visor_begin_op w "cleaning up old build artifacts") Hk)
    as [H1 H2].
  simpl. split; [exact H1 | exact H2].
Qed.

(** The case analysis of [write_manifests]. *)
Ltac destruct_manifests desc :=
  unfold write_manifests; rewrite !string_field_eq;
  destruct (is_jstring (get_prop desc "name"));
  destruct (is_jstring (get_prop desc "author"));
  destruct (get_prop desc "resolution") as [| | | | ?r |]; simpl;
  try (destruct (sscanf_dxd r) as [[? ?] |]); simpl;
  destruct (get_prop desc "main") as [| | | | ?m |]; simpl;
  try (destruct (path_hop_is (fs_full_path m (Some "@/")) 0 "@")); simpl;
  try (destruct (fs_fexist _ (path_cstr (fs_full_path m (Some "@/"))))); simpl.

Lemma write_manifests_effects (w : world) (desc : descriptor) :
  let '(ok, w', _) := write_manifests w desc in
  (ok = false -> w_files w' = w_files w) /\
  (ok = true -> visor_num_errors w' = visor_num_errors w).
Proof.
  destruct_manifests desc.
  all: split; intros; try discriminate; reflexivity.
Qed.

Lemma build_targets_keeps (target_build : target_t -> bool -> world -> world)
    (Htb : forall t rb w k, k ∈ manifest_files ->
             w_files (target_build t rb w) !! k = w_files w !! k)
    (ts : list target_t) (rb : bool) (w : world) (k : string) :
  k ∈ manifest_files ->
  w_files (fold_left (fun w' t => if is_game_target t then target_build t rb w' else w') ts w)
    !! k = w_files w !! k.
Proof.
  intros Hk. revert w. induction ts as [| t ts IH]; intros w; cbn [fold_left]; [reflexivity |].
  rewrite IH. destruct (is_game_target t); [apply Htb; exact Hk | reflexivity].
Qed.

(** The error cases of [build_run], outside the conflict check. *)
Lemma build_run_on_errors_core (target_build : target_t -> bool -> world -> world)
    (Htb : forall t rb w k, k ∈ manifest_files ->
             w_files (target_build t rb w) !! k = w_files w !! k)
    (b : build_t) (Hart : "@/artifacts.json" ∉ b_artifacts b)
    (w : world) (want_debug rebuild_all : bool) :
  let '(ok, w') := build_run target_build b w want_debug rebuild_all in
  0 < visor_num_errors w' ->
  ok = false /\
  w_files w' !! "@/artifacts.json" = w_files w !! "@/artifacts.json" /\
  (visor_num_errors (conflict_check w (b_targets b)) = 0 ->
     w_files w' !! "@/game.json" = None /\ w_files w' !! "@/game.sgm" = None).
Proof.
  assert (Hin : "@/artifacts.json" ∈ manifest_files) by (unfold manifest_files; set_solver).
  unfold build_run.
  destruct (Nat.ltb 0 (visor_num_errors (conflict_check w (b_targets b)))) eqn:Hc.
  - intros Hpos. split; [apply Nat.eqb_neq; unfold visor_num_errors in *; simpl in *; lia |].
    split; [simpl; rewrite conflict_check_files; reflexivity |].
    intros H0. rewrite H0 in Hc. discriminate.
  - set (w1 := conflict_check w (b_targets b)).
    set (w2 := fold_left _ (b_targets b) w1).
    assert (Hw2 : w_files w2 !! "@/artifacts.json" = w_files w !! "@/artifacts.json").
    { unfold w2. rewrite build_targets_keeps by assumption.
      unfold w1. rewrite conflict_check_files. reflexivity. }
    destruct (Nat.eqb (visor_num_errors (visor_end_op w2)) 0) eqn:H3.
    + destruct (clean_old_artifacts_keeps b (visor_end_op w2) "@/artifacts.json" Hart)
        as [Hcl1 Hcl2].
      pose proof (write_manifests_effects (clean_old_artifacts b (visor_end_op w2) true)
                    (b_descriptor b)) as Hwm.
      destruct (write_manifests (clean_old_artifacts b (visor_end_op w2) true) (b_descriptor b))
        as [[ok w5] d].
      destruct Hwm as [Hf Ht].
      destruct ok; simpl.
      * intros Hpos. exfalso.
        apply Nat.eqb_eq in H3. specialize (Ht eq_refl).
        assert (visor_num_errors w5 = 0) as H5 by (rewrite Ht, Hcl2; exact H3).
        destruct want_debug; unfold visor_num_errors in *; simpl in *; lia.
      * intros Hpos.
        split; [apply Nat.eqb_neq; unfold visor_num_errors in *; simpl in *; lia |].
        split.
        -- unfold fs_unlink, set_files; cbn [w_files].
           rewrite !lookup_delete_ne by discriminate.
           rewrite Hf by reflexivity. rewrite Hcl1. simpl. exact Hw2.
        -- intros _. unfold fs_unlink, set_files; cbn [w_files].
           split; [rewrite lookup_delete_ne by discriminate; apply lookup_delete_eq
                  | apply lookup_delete_eq].
    + simpl. intros Hpos.
      split; [apply Nat.eqb_neq; unfold visor_num_errors in *; simpl in *; lia |].
      split.
      * unfold fs_unlink, set_files; cbn [w_files].
        rewrite !lookup_delete_ne by discriminate. exact Hw2.
      * intros _. unfold fs_unlink, set_files; cbn [w_files].
        split; [rewrite lookup_delete_ne by discriminate; apply lookup_delete_eq
               | apply lookup_delete_eq].
Qed.

(** Claim C4 (amended): when [build_run] ends with errors it returns
    false and leaves [@/artifacts.json] as it found it (it is written
    only by an error-free run), provided the tools do not write the
    manifest files themselves and the previous artifact list does not
    name [@/artifacts.json]; when the conflict check passed (the
    errors came from building or from the manifest checks), it has
    deleted [@/game.json] and [@/game.sgm]; and when the conflict check
    itself reports errors, it returns right after it, before building,
    deleting or writing anything: the world is the one the conflict
    check left, with the same files as before the run. *)
Theorem build_run_on_errors (target_build : target_t -> bool -> world -> world)
    (Htb : forall t rb w k, k ∈ manifest_files ->
             w_files (target_build t rb w) !! k = w_files w !! k)
    (b : build_t) (Hart : "@/artifacts.json" ∉ b_artifacts b)
    (w : world) (want_debug rebuild_all : bool) :
  let '(ok, w') := build_run target_build b w want_debug rebuild_all in
  0 < visor_num_errors w' ->
  ok = false /\
  w_files w' !! "@/artifacts.json" = w_files w !! "@/artifacts.json" /\
  (visor_num_errors (conflict_check w (b_targets b)) = 0 ->
     w_files w' !! "@/game.json" = None /\ w_files w' !! "@/game.sgm" = None) /\
  (0 < visor_num_errors (conflict_check w (b_targets b)) ->
     w' = visor_end_op (conflict_check w (b_targets b)) /\ w_files w' = w_files w).
Proof.
  pose proof (build_run_on_errors_core target_build Htb b Hart w want_debug rebuild_all) as Hcore.
  assert (Hconf : 0 < visor_num_errors (conflict_check w (b_targets b)) ->
            build_run target_build b w want_debug rebuild_all
            = (false, visor_end_op (conflict_check w (b_targets b)))).
  { intros Hc. unfold build_run.
    destruct (Nat.ltb_spec 0 (visor_num_errors (conflict_check w (b_targets b)))); [| lia].
    f_equal. apply Nat.eqb_neq. unfold visor_num_errors in *. cbn [visor_end_op set_visor w_visor v_errors]. lia. }
  destruct (build_run target_build b w want_debug rebuild_all) as [ok w'] eqn:E.
  intros Hpos. destruct (Hcore Hpos) as [H1 [H2 H3]].
  split; [exact H1 | split; [exact H2 | split; [exact H3 |]]].
  intros Hc. specialize (Hconf Hc). injection Hconf as _ ->.
  split; [reflexivity |]. cbn [visor_end_op set_visor w_files]. apply conflict_check_files.
Qed.

(** Claim C4 (counterexample): the build of [@/a.txt] fails, and
    [build_run] keeps the old [@/artifacts.json] rather than writing the
    new artifact set [["@/a.txt"]]. *)
Lemma build_run_keeps_stale_artifacts :
  let '(ok, w') := build_run failing_build stale_build stale_world false false in
  ok = false /\ 0 < visor_num_errors w' /\
  v_filenames (w_visor w') = ["@/a.txt"] /\
  fs_fslurp w' "@/artifacts.json" = Some (json_string_array ["@/old.txt"]) /\
  fs_fslurp w' "@/artifacts.json" <> Some (json_string_array (v_filenames (w_visor w'))).
Proof.
  vm_compute. split; [reflexivity |]. split; [lia |].
  split; [reflexivity |]. split; [reflexivity | discriminate].
Qed.

Lemma build_run_on_errors_witness :
  ("@/artifacts.json" ∉ b_artifacts stale_build) /\
  (let '(ok, w') := build_run failing_build stale_build stale_world false false in
   0 < visor_num_errors w' ->
   ok = false /\
   w_files w' !! "@/artifacts.json" = w_files stale_world !! "@/artifacts.json" /\
   (visor_num_errors (conflict_check stale_world (b_targets stale_build)) = 0 ->
      w_files w' !! "@/game.json" = None /\ w_files w' !! "@/game.sgm" = None) /\
   (0 < visor_num_errors (conflict_check stale_world (b_targets stale_build)) ->
      w' = visor_end_op (conflict_check stale_world (b_targets stale_build)) /\
      w_files w' = w_files stale_world)).
Proof.
  assert (Hart : "@/artifacts.json" ∉ b_artifacts stale_build).
  { simpl. apply not_elem_of_cons. split; [discriminate | apply not_elem_of_nil]. }
  split; [exact Hart |].
  exact (build_run_on_errors failing_build (fun t rb w k _ => eq_refl) stale_build Hart
           stale_world false false).
Defined.

(* --------------------------------------------------------------------- *)
(** ** The module cache *)

Lemma keeps_refl (s : lstate) : keeps s s.
Proof. split; [auto | exists []; split; [reflexivity | intros; apply not_elem_of_nil]]. Qed.

Lemma keeps_trans (s0 s1 s2 : lstate) : keeps s0 s1 -> keeps s1 s2 -> keeps s0 s2.
Proof.
  intros [Hc1 [n1 [Hr1 Hn1]]] [Hc2 [n2 [Hr2 Hn2]]]. split; [auto |].
  exists (n2 ++ n1). split; [rewrite Hr2, Hr1, app_assoc; reflexivity |].
  intros k [m Hk]. rewrite elem_of_app. intros [Hin | Hin].
  - apply (Hn2 k); [exists m; auto | exact Hin].
  - apply (Hn1 k); [exists m; auto | exact Hin].
Qed.

Lemma keeps_set_module (s0 s : lstate) (mid : nat) (f : modrec -> modrec) :
  keeps s0 s -> keeps s0 (set_module s mid f).
Proof. intros H. exact H. Qed.

Lemma exec_body_keeps (ev : lstate -> string -> option (lstate * result))
    (Hev : forall s g s' r, ev s g = Some (s', r) -> keeps s s')
    (mid : nat) (body : list instr) :
  forall s s' ok, exec_body ev mid body s = Some (s', ok) -> keeps s s'.
Proof.
  induction body as [| i body IH]; intros s s' ok H; simpl in H.
  - injection H as <- _. apply keeps_refl.
  - destruct i as [g | g | v |].
    + destruct (ev s g) as [[s1 [e |]] |] eqn:He; try discriminate.
      * apply keeps_trans with s1; [eapply Hev; exact He | eapply IH; exact H].
      * injection H as <- _. eapply Hev; exact He.
    + destruct (ev s g) as [[s1 r1] |] eqn:He; try discriminate.
      apply keeps_trans with s1; [eapply Hev; exact He | eapply IH; exact H].
    + apply keeps_trans with (set_module s mid (fun m => mkmod v (m_loaded m) (m_id m))).
      * apply keeps_set_module, keeps_refl.
      * eapply IH; exact H.
    + injection H as <- _. apply keeps_refl.
Qed.

Lemma eval_cjs_module_keeps (srcs : string -> source) (fuel : nat) :
  forall st g st' r, eval_cjs_module srcs fuel st g = Some (st', r) -> keeps st st'.
Proof.
  induction fuel as [| fuel IH]; intros st g st' r H; cbn [eval_cjs_module cache heap next_id runs] in H; [discriminate |].
  destruct (cache st !! g) as [m |] eqn:Hc.
  { injection H as <- _. apply keeps_refl. }
  (* the module object enters the cache under [g], which was not cached *)
  set (st1 := mkls (<[g := next_id st]> (cache st))
                   (<[next_id st := mkmod (S (next_id st)) false g]> (heap st))
                   (S (S (next_id st))) (runs st)).
  assert (Hins : keeps st st1).
  { split; [| exists []; split; [reflexivity | intros; apply not_elem_of_nil]].
    intros k m Hk. simpl. rewrite lookup_insert_ne; [exact Hk | congruence]. }
  assert (Hdel : forall s, keeps st s -> is_Some (cache s !! g) ->
            keeps st (mkls (delete g (cache s)) (heap s) (next_id s) (runs s))).
  { intros s [Hcs Hrs] _. split; [| exact Hrs].
    intros k m Hk. simpl. rewrite lookup_delete_ne; [apply Hcs; exact Hk | congruence]. }
  destruct (srcs g) as [[v |] | [|] body].
  - injection H as <- _. apply keeps_set_module, keeps_set_module, Hins.
  - injection H as <- _. apply (Hdel st1); [exact Hins | simpl; rewrite lookup_insert_eq; eauto].
  - set (st2 := mkls (<[g := next_id st]> (cache st))
                     (<[next_id st := mkmod (S (next_id st)) false g]> (heap st))
                     (S (S (next_id st))) (g :: runs st)) in H |- *.
    assert (H2 : keeps st st2).
    { split; [apply Hins |]. exists [g]. split; [reflexivity |].
      intros k [m Hk] Hin. apply list_elem_of_singleton in Hin. subst k. congruence. }
    destruct (exec_body (eval_cjs_module srcs fuel) (next_id st) body st2)
      as [[st3 [|]] |] eqn:Hx; try discriminate.
    + injection H as <- _. apply keeps_set_module.
      apply keeps_trans with st2; [exact H2 |].
      eapply exec_body_keeps; [exact IH | exact Hx].
    + injection H as <- _.
      assert (H3 : keeps st2 st3) by (eapply exec_body_keeps; [exact IH | exact Hx]).
      apply Hdel; [apply keeps_trans with st2; assumption |].
      exists (next_id st). apply (proj1 H3). simpl. apply lookup_insert_eq.
  - injection H as <- _. apply (Hdel st1); [exact Hins | simpl; rewrite lookup_insert_eq; eauto].
Qed.

Lemma count_runs (f : string) (new l : list string) :
  f ∉ new -> count_occ string_dec (new ++ f :: l) f = S (count_occ string_dec l f).
Proof.
  intros Hn. rewrite count_occ_app.
  assert (H0 : count_occ string_dec new f = 0).
  { apply count_occ_not_In. intros Hin. apply Hn, list_elem_of_In, Hin. }
  rewrite H0. simpl. destruct (string_dec f f) as [_ | Hne]; [reflexivity | congruence].
Qed.

Lemma eval_n_cached (srcs : string -> source) (fuel n : nat) (s : lstate) (f : string)
    (m : nat) :
  cache s !! f = Some m -> 0 < fuel ->
  eval_n srcs fuel n s f = Some (s, repeat (Ok (exports_of s m)) n).
Proof.
  intros Hc Hf. destruct fuel as [| fuel]; [lia |].
  induction n as [| n IH]; [reflexivity |].
  simpl. rewrite Hc. cbn in IH. rewrite IH. reflexivity.
Qed.

(** Claim C5: [eval_cjs_module] caches the module object under its
    filename before running the body and uncaches it when loading
    throws.  For one load of [f]: when it throws, [f] is no longer
    cached; when [f] was cached, nothing runs and the cached exports
    come back; when [f] was not cached and is a script that compiles,
    its body has run exactly once more, cyclic [require]s of [f] from
    inside that run included; and when the load returns exports [e],
    any number of further loads of [f] return [e] each time and change
    nothing, so the body is not run again. *)
Theorem eval_cjs_module_cache (srcs : string -> source) (fuel : nat) (st st' : lstate)
    (f : string) (r : result) (H : eval_cjs_module srcs fuel st f = Some (st', r)) :
  (r = Threw -> cache st' !! f = None) /\
  (forall m, cache st !! f = Some m -> st' = st /\ r = Ok (exports_of st m)) /\
  (forall body, cache st !! f = None -> srcs f = SrcScript true body ->
     count_occ string_dec (runs st') f = S (count_occ string_dec (runs st) f)) /\
  (forall e, r = Ok e -> forall fuel' n, 0 < fuel' ->
     eval_n srcs fuel' n st' f = Some (st', repeat (Ok e) n)).
Proof.
  destruct fuel as [| fuel]; [discriminate |].
  cbn [eval_cjs_module cache heap next_id runs] in H.
  destruct (cache st !! f) as [m |] eqn:Hc.
  { injection H as <- <-. split; [discriminate |]. split.
    - intros m' Hm. injection Hm as <-. split; reflexivity.
    - split; [intros; congruence |].
      intros e He fuel' n Hf. injection He as <-. apply eval_n_cached; assumption. }
  set (st2 := mkls (<[f := next_id st]> (cache st))
                   (<[next_id st := mkmod (S (next_id st)) false f]> (heap st))
                   (S (S (next_id st))) (f :: runs st)) in H |- *.
  destruct (srcs f) as [[v |] | [|] body] eqn:Hs.
  - injection H as <- <-. split; [discriminate |]. split; [intros; congruence |].
    split; [intros; discriminate |].
    intros e He fuel' n Hf. injection He as <-. apply eval_n_cached; [| exact Hf].
    simpl. apply lookup_insert_eq.
  - injection H as <- <-. split; [intros _; simpl; apply lookup_delete_eq |].
    split; [intros; congruence |]. split; [intros; discriminate | discriminate].
  - assert (H2 : cache st2 !! f = Some (next_id st)) by (simpl; apply lookup_insert_eq).
    destruct (exec_body (eval_cjs_module srcs fuel) (next_id st) body st2)
      as [[st3 ok] |] eqn:Hx; [| discriminate].
    assert (H3 : keeps st2 st3)
      by (eapply exec_body_keeps; [apply eval_cjs_module_keeps | exact Hx]).
    destruct H3 as [Hc3 [new [Hr3 Hn3]]].
    assert (Hcount : count_occ string_dec (runs st3) f = S (count_occ string_dec (runs st) f)).
    { rewrite Hr3. apply count_runs. apply Hn3. rewrite H2. eauto. }
    destruct ok; injection H as <- <-.
    + split; [discriminate |]. split; [intros; congruence |].
      split; [intros body' _ Hb; exact Hcount |].
      intros e He fuel' n Hf. rewrite <- He. apply eval_n_cached; [| exact Hf].
      simpl. apply Hc3, H2.
    + split; [intros _; simpl; apply lookup_delete_eq |].
      split; [intros; congruence |].
      split; [intros body' _ Hb; exact Hcount | discriminate].
  - injection H as <- <-. split; [intros _; simpl; apply lookup_delete_eq |].
    split; [intros; congruence |]. split; [intros body' _ Hb; discriminate | discriminate].
Qed.

Lemma eval_cjs_module_cache_witness :
  eval_cjs_module loader_srcs 4 loader_init "a.js" = Some (loader_final, Ok 5) /\
  ((Ok 5 = Threw -> cache loader_final !! "a.js" = None) /\
   (forall m, cache loader_init !! "a.js" = Some m ->
      loader_final = loader_init /\ Ok 5 = Ok (exports_of loader_init m)) /\
   (forall body, cache loader_init !! "a.js" = None -> loader_srcs "a.js" = SrcScript true body ->
      count_occ string_dec (runs loader_final) "a.js"
      = S (count_occ string_dec (runs loader_init) "a.js")) /\
   (forall e, Ok 5 = Ok e -> forall fuel' n, 0 < fuel' ->
      eval_n loader_srcs fuel' n loader_final "a.js" = Some (loader_final, repeat (Ok e) n))).
Proof.
  assert (H : eval_cjs_module loader_srcs 4 loader_init "a.js" = Some (loader_final, Ok 5))
    by (vm_compute; reflexivity).
  split; [exact H |].
  exact (eval_cjs_module_cache loader_srcs 4 loader_init loader_final "a.js" (Ok 5) H).
Defined.

(* --------------------------------------------------------------------- *)
(** ** Module resolution *)

(** Claim C6 (a defect): [find_cjs_module] gives the [package.json]
    treatment to every existing candidate whose file name is
    [package.json], not only to the fifth candidate [<id>/package.json].
    So [require("./package.json")] from [$/main.js] resolves to
    [$/index.js], the file its [main] field names, while the first
    existing candidate is [$/package.json] itself; [js_require] loads
    [$/index.js].  The rejection of relative ids in global code holds:
    with no calling module such an id is refused with the TypeError
    "relative require not allowed in global code". *)
Theorem find_cjs_module_package_json_id :
  option_map path_cstr
    (find_cjs_module pkg_decode pkg_world "./package.json" (Some "$/main.js") "$/lib")
    = Some "$/index.js" /\
  option_map path_cstr
    (spec_find pkg_decode pkg_world "./package.json" (Some "$/main.js") "$/lib")
    = Some "$/package.json" /\
  (exists p, js_require_resolve pkg_decode pkg_world (Some "$/main.js") "./package.json"
             = inl p /\ path_cstr p = "$/index.js") /\
  (forall dec w id, is_relative_id id = true ->
     js_require_resolve dec w None id
     = inr (TypeError "relative require not allowed in global code")).
Proof.
  split; [vm_compute; reflexivity |].
  split; [vm_compute; reflexivity |].
  split.
  - eexists. split; [vm_compute; reflexivity | vm_compute; reflexivity].
  - intros dec w id Hrel. unfold js_require_resolve. rewrite Hrel. reflexivity.
Qed.

(* --------------------------------------------------------------------- *)
(** ** FileStream methods *)

Lemma str_length_app (a b : string) : String.length (a +++ b) = String.length a + String.length b.
Proof. induction a as [| c a IH]; simpl; [reflexivity | rewrite IH; reflexivity]. Qed.

Lemma str_length_nuls (n : nat) : String.length (nuls n) = n.
Proof. induction n as [| n IH]; simpl; [reflexivity | rewrite IH; reflexivity]. Qed.

Lemma str_length_substring (s : string) : forall m n,
  String.length (substring m n s) = Nat.min n (String.length s - m).
Proof.
  induction s as [| c s IH]; intros m n.
  - destruct m, n; reflexivity.
  - destruct m as [| m].
    + destruct n as [| n]; simpl; [reflexivity |]. rewrite IH. simpl. rewrite Nat.sub_0_r. reflexivity.
    + simpl. apply IH.
Qed.


Lemma substring_app_prefix (a b : string) : substring 0 (String.length a) (a +++ b) = a.
Proof. induction a as [| c a IH]; simpl; [destruct b; reflexivity | rewrite IH; reflexivity]. Qed.

Lemma substring_app_skip (a b : string) (m n : nat) :
  substring (String.length a + m) n (a +++ b) = substring m n b.
Proof. induction a as [| c a IH]; simpl; [reflexivity | exact IH]. Qed.

Lemma substring_app_short (a b : string) (n : nat) :
  n <= String.length a -> substring 0 n (a +++ b) = substring 0 n a.
Proof.
  revert n. induction a as [| c a IH]; intros n Hn; simpl in *.
  - assert (n = 0) by lia. subst. destruct b; reflexivity.
  - destruct n as [| n]; [reflexivity |]. simpl. rewrite IH by lia. reflexivity.
Qed.

Lemma file_data_set_pos (w : world) (s : stream) (p : nat) :
  file_data w (set_pos s p) = file_data w s.
Proof. reflexivity. Qed.

Lemma set_pos_same (s : stream) : set_pos s (s_pos s) = s.
Proof. destruct s; reflexivity. Qed.



Lemma duk_require_int_nonneg (v : Z) : (0 <= v)%Z -> duk_require_int v = Z.min v INT_MAX.
Proof. intros Hv. unfold duk_require_int, INT_MIN, INT_MAX. lia. Qed.




Lemma str_app_nil (a : string) : a +++ "" = a.
Proof. induction a as [| c a IH]; [reflexivity | exact (f_equal (String c) IH)]. Qed.

Lemma str_app_assoc (a b c : string) : (a +++ b) +++ c = a +++ b +++ c.
Proof. induction a as [| x a IH]; [reflexivity | exact (f_equal (String x) IH)]. Qed.

Lemma substring_zero (s : string) : forall m, substring m 0 s = "".
Proof. induction s as [| c s IH]; intros [| m]; [reflexivity .. | apply IH]. Qed.

Lemma substring_0_long (s : string) (n : nat) :
  String.length s <= n -> substring 0 n s = s.
Proof.
  revert n. induction s as [| c s IH]; intros n Hn; simpl in *.
  - destruct n; reflexivity.
  - destruct n as [| n]; [lia |]. simpl. rewrite IH by lia. reflexivity.
Qed.

(** Writing [d] to a stream not opened ["rb"] succeeds, moves the
    position past the data and stores it at the old position: seeking
    back there and reading [length d] bytes gives [d] again, as long as
    both numbers fit the [int] that [duk_require_int] returns. The file
    grows to [max(old size, position + length d)], the bytes before the
    position are kept (a gap past the old end filled with NUL bytes),
    the bytes after the written region are kept, and no other file
    changes. *)
Theorem filestream_write_read_back (w : world) (s : stream) (d : string)
  (Hmode : s_mode s <> "rb")
  (Hpos : (Z.of_nat (s_pos s) <= INT_MAX)%Z)
  (Hlen : (Z.of_nat (String.length d) <= INT_MAX)%Z) :
  let p := s_pos s in
  let c := file_data w s in
  let e := p + String.length d in
  exists w1,
    js_FileStream_write w (Some s) d = inl (set_pos s e, w1) /\
    js_FileStream_set_position (Some (set_pos s e)) (Z.of_nat p) = inl (set_pos s p) /\
    js_FileStream_read w1 (Some (set_pos s p)) (Some (Z.of_nat (String.length d)))
      = (inl d, Some (set_pos s e)) /\
    String.length (file_data w1 s) = Nat.max (String.length c) e /\
    substring 0 p (file_data w1 s) = substring 0 p c +++ nuls (p - String.length c) /\
    substring e (String.length c - e) (file_data w1 s) = substring e (String.length c - e) c /\
    (forall k, k <> s_name s -> w_files w1 !! k = w_files w !! k).
Proof.
  intros p c e.
  set (c' := if Nat.ltb (String.length c) p then c +++ nuls (p - String.length c) else c).
  assert (Hlc' : String.length c' = Nat.max (String.length c) p).
  { unfold c'. destruct (Nat.ltb_spec (String.length c) p).
    - rewrite str_length_app, str_length_nuls. lia.
    - lia. }
  set (A := substring 0 p c').
  assert (HA : String.length A = p).
  { unfold A. rewrite str_length_substring. lia. }
  set (B := substring e (String.length c' - e) c').
  assert (HN : overwrite_at c p d = A +++ d +++ B) by reflexivity.
  set (w1 := set_files w (<[s_name s := mkfile (overwrite_at c p d) (w_now w)]> (w_files w))).
  assert (Hd1 : file_data w1 s = A +++ d +++ B).
  { unfold file_data, w1, set_files. cbn [w_files]. rewrite lookup_insert_eq. exact HN. }
  exists w1. split; [| split; [| split; [| split; [| split; [| split]]]]].
  - unfold js_FileStream_write, fwrite.
    destruct (String.eqb_spec (s_mode s) "rb") as [Heq | _]; [contradiction |].
    rewrite Nat.eqb_refl. reflexivity.
  - unfold js_FileStream_set_position.
    rewrite duk_require_int_nonneg, Z.min_l by lia.
    destruct (Z.ltb_spec (Z.of_nat p) 0); [lia |].
    rewrite Nat2Z.id. reflexivity.
  - unfold js_FileStream_read.
    rewrite duk_require_int_nonneg, Z.min_l by lia.
    destruct (Z.ltb_spec (Z.of_nat (String.length d)) 0); [lia |].
    rewrite Nat2Z.id. unfold fread. rewrite file_data_set_pos, Hd1. cbn [s_pos set_pos].
    assert (Hsub : substring p (String.length d) (A +++ d +++ B) = d).
    { rewrite <- HA, <- (Nat.add_0_r (String.length A)).
      rewrite substring_app_skip. apply substring_app_prefix. }
    rewrite Hsub. unfold e. destruct s; reflexivity.
  - rewrite Hd1, !str_length_app. unfold B. rewrite str_length_substring. lia.
  - rewrite Hd1. rewrite substring_app_short by lia.
    rewrite (substring_0_long A p) by lia. unfold A.
    unfold c'. destruct (Nat.ltb_spec (String.length c) p).
    + rewrite (substring_0_long c p) by lia.
      rewrite substring_0_long by (rewrite str_length_app, str_length_nuls; lia).
      reflexivity.
    + replace (p - String.length c) with 0 by lia. cbn [nuls]. rewrite str_app_nil. reflexivity.
  - rewrite Hd1, <- str_app_assoc.
    destruct (Nat.leb_spec (String.length c) e) as [Hle | Hlt].
    + replace (String.length c - e) with 0 by lia.
      rewrite !substring_zero. reflexivity.
    + assert (Hc' : c' = c).
      { unfold c'. destruct (Nat.ltb_spec (String.length c) p); [lia | reflexivity]. }
      replace e with (String.length (A +++ d) + 0) at 1 by (rewrite str_length_app; lia).
      rewrite substring_app_skip. unfold B. rewrite Hc'.
      rewrite substring_0_long; [reflexivity |].
      rewrite str_length_substring. lia.
  - intros k Hk. unfold w1, set_files. cbn [w_files]. rewrite lookup_insert_ne by congruence.
    reflexivity.
Qed.

(** A [FileStream] opened with [FileOp.Read] (mode ["rb"]) starts at
    position 0 of an existing file and leaves the world as it was;
    writing any non-empty data to it raises "failure to write to file"
    and changes nothing, while writing the empty string succeeds as a
    no-op. *)
Theorem filestream_read_only_writes_fail (w : world) (filename : string) (s : stream) (w1 : world)
  (Hopen : js_new_FileStream w filename FILE_OP_READ = inl (s, w1)) :
  w1 = w /\ s = mkstream filename "rb" 0 /\ is_Some (w_files w !! filename) /\
  (forall d, d <> "" -> js_FileStream_write w1 (Some s) d = inr (JSError "failure to write to file")) /\
  js_FileStream_write w1 (Some s) "" = inl (s, w1).
Proof.
  unfold js_new_FileStream, FILE_OP_READ, FILE_OP_UPDATE, FILE_OP_MAX in Hopen.
  cbn [Z.ltb Z.geb Z.compare Z.eqb orb andb negb] in Hopen.
  unfold fs_fopen in Hopen. cbn [String.eqb Ascii.eqb Bool.eqb] in Hopen.
  destruct (w_files w !! filename) as [f |] eqn:Hf; [| discriminate].
  injection Hopen as <- <-.
  split; [reflexivity | split; [reflexivity | split; [eexists; reflexivity |]]].
  split.
  - intros d Hd. unfold js_FileStream_write, fwrite. cbn [s_mode String.eqb Ascii.eqb Bool.eqb].
    destruct d as [| c d]; [contradiction | reflexivity].
  - reflexivity.
Qed.

(* --------------------------------------------------------------------- *)
(** ** Directory cursors *)

Lemma skipn_nth_error {A} (l : list A) : forall i x,
  nth_error l i = Some x -> skipn i l = x :: skipn (S i) l.
Proof.
  induction l as [| y l IH]; intros [| i] x H; simpl in *; try discriminate.
  - injection H as ->. reflexivity.
  - apply IH. exact H.
Qed.

Lemma next_n_at_end (fsl : string -> option (list path)) (l : list path) (pth : path) (k : nat) :
  next_n fsl k (mkdirectory (Some l) (Z.of_nat (List.length l)) pth)
  = Some (repeat None k, mkdirectory (Some l) (Z.of_nat (List.length l)) pth).
Proof.
  induction k as [| k IH]; [reflexivity |].
  cbn [next_n]. unfold directory_next, ensure_entries. cbn [d_entries d_position d_path].
  destruct (Z.geb_spec (Z.of_nat (List.length l)) (Z.of_nat (List.length l))); [| lia].
  rewrite IH. reflexivity.
Qed.

Lemma next_n_from (fsl : string -> option (list path)) (l : list path) (pth : path) (k : nat) :
  forall m i, m = List.length l - i -> i <= List.length l ->
  next_n fsl (m + k) (mkdirectory (Some l) (Z.of_nat i) pth)
  = Some (map Some (skipn i l) ++ repeat None k,
          mkdirectory (Some l) (Z.of_nat (List.length l)) pth).
Proof.
  induction m as [| m IH]; intros i Hm Hi.
  - assert (i = List.length l) by lia. subst i.
    rewrite skipn_all. apply next_n_at_end.
  - destruct (nth_error l i) as [x |] eqn:Hx;
      [| apply nth_error_None in Hx; lia].
    cbn [Nat.add next_n]. unfold directory_next, ensure_entries. cbn [d_entries d_position d_path].
    destruct (Z.geb_spec (Z.of_nat i) (Z.of_nat (List.length l))) as [Hge | _]; [lia |].
    destruct (Z.ltb_spec (Z.of_nat i) 0) as [Hlt | _]; [lia |].
    rewrite Nat2Z.id, Hx.
    replace (Z.of_nat i + 1)%Z with (Z.of_nat (S i)) by lia.
    rewrite (IH (S i)) by lia.
    rewrite (skipn_nth_error l i x Hx). reflexivity.
Qed.

(** A [DirectoryStream] over a directory whose listing is [l] reports
    [length l] entries and returns them in the listing's order, one per
    [next()] call; once they are exhausted, every further call returns
    nothing (no entry) and the position stays at the end (counted here
    over [length l + k + 1] calls). *)
Theorem directory_enumerates_listing (fde : string -> bool) (fsl : string -> option (list path))
  (dirname : string) (it : directory) (l : list path) (k : nat)
  (Hopen : directory_open fde dirname = Some it)
  (Hlist : fsl (path_cstr (path_new_dir dirname)) = Some l) :
  directory_num_files fsl it
    = Some (Z.of_nat (List.length l), mkdirectory (Some l) 0 (path_new_dir dirname)) /\
  next_n fsl (List.length l + S k) it
    = Some (map Some l ++ repeat None (S k),
            mkdirectory (Some l) (Z.of_nat (List.length l)) (path_new_dir dirname)).
Proof.
  unfold directory_open in Hopen.
  destruct (fde dirname); [| discriminate].
  injection Hopen as <-.
  split.
  - unfold directory_num_files, ensure_entries, directory_rewind.
    cbn [d_entries d_path]. rewrite Hlist. reflexivity.
  - destruct l as [| x l'] eqn:Hl.
    + cbn [List.length Nat.add map app].
      cbn [next_n]. unfold directory_next, ensure_entries, directory_rewind.
      cbn [d_entries d_path d_position]. rewrite Hlist. simpl.
      assert (He := next_n_at_end fsl [] (path_new_dir dirname) k).
      change (Z.of_nat (List.length [])) with 0%Z in He.
      rewrite He. reflexivity.
    + replace (List.length (x :: l') + S k) with (S (List.length l' + S k)) by (simpl; lia).
      cbn [next_n]. unfold directory_next, ensure_entries, directory_rewind.
      cbn [d_entries d_path d_position]. rewrite Hlist.
      cbn [d_entries d_path d_position List.length].
      destruct (Z.geb_spec 0 (Z.of_nat (S (List.length l')))); [lia |].
      cbn [Z.ltb Z.compare Z.to_nat nth_error].
      assert (H1 := next_n_from fsl (x :: l') (path_new_dir dirname) (S k)
                      (List.length l') 1 ltac:(simpl; lia) ltac:(simpl; lia)).
      change (Z.of_nat 1) with (0 + 1)%Z in H1.
      rewrite H1. reflexivity.
Qed.

(** [DirectoryStream#position = p] succeeds exactly when [p] is at most
    the number of entries, negative positions included; after seeking
    to [0 <= p < length], [next()] returns entry [p]; after seeking to
    a negative position, [next()] reads outside the entry vector. *)
Theorem directory_seek_then_next (fsl : string -> option (list path)) (l : list path)
  (q : Z) (pth : path) (z : Z) :
  let it := mkdirectory (Some l) q pth in
  ((z > Z.of_nat (List.length l))%Z -> directory_seek fsl it z = Some (false, it)) /\
  ((z <= Z.of_nat (List.length l))%Z ->
     directory_seek fsl it z = Some (true, mkdirectory (Some l) z pth)) /\
  ((0 <= z < Z.of_nat (List.length l))%Z ->
     exists x, nth_error l (Z.to_nat z) = Some x /\
       directory_next fsl (mkdirectory (Some l) z pth)
       = Some (Some x, mkdirectory (Some l) (z + 1) pth)) /\
  ((z < 0)%Z -> directory_next fsl (mkdirectory (Some l) z pth) = None).
Proof.
  intros it. unfold directory_seek, directory_next, ensure_entries, it.
  cbn [d_entries d_position d_path].
  split; [| split; [| split]].
  - intros Hz. destruct (Z.gtb_spec z (Z.of_nat (List.length l))); [reflexivity | lia].
  - intros Hz. destruct (Z.gtb_spec z (Z.of_nat (List.length l))); [lia | reflexivity].
  - intros Hz.
    destruct (nth_error l (Z.to_nat z)) as [x |] eqn:Hx;
      [| apply nth_error_None in Hx; lia].
    exists x. split; [reflexivity |].
    destruct (Z.geb_spec z (Z.of_nat (List.length l))); [lia |].
    destruct (Z.ltb_spec z 0); [lia |].
    reflexivity.
  - intros Hz.
    destruct (Z.geb_spec z (Z.of_nat (List.length l))); [lia |].
    destruct (Z.ltb_spec z 0); [reflexivity | lia].
Qed.

(* --------------------------------------------------------------------- *)
(** ** The FS API *)

(** [FS.deleteFile] has its success test inverted ([if (!fs_unlink(...))]
    on a function returning 0 on success): when the file exists inside
    the sandbox it is deleted and the call then raises "unable to
    delete file"; when the file is missing or the name escapes the
    sandbox nothing changes and the call returns normally. *)
Theorem fs_deleteFile_inverted (fs : fs_t) (w : world) (filename : string) :
  (forall r, real_name fs filename = Some r -> is_Some (w_files w !! r) ->
     js_FS_deleteFile fs w filename
       = (Some "unable to delete file", set_files w (delete r (w_files w))) /\
     w_files (snd (js_FS_deleteFile fs w filename)) !! r = None) /\
  ((real_name fs filename = None \/
    exists r, real_name fs filename = Some r /\ w_files w !! r = None) ->
     js_FS_deleteFile fs w filename = (None, w)).
Proof.
  unfold js_FS_deleteFile, fs_unlink_rc. split.
  - intros r Hr [f Hf]. rewrite Hr, Hf. cbn [Z.eqb]. split; [reflexivity |].
    cbn [snd set_files w_files]. apply lookup_delete_eq.
  - intros [Hn | [r [Hr Hf]]].
    + rewrite Hn. reflexivity.
    + rewrite Hr, Hf. reflexivity.
Qed.

(** [FS.rename] has the same inverted test: a rename that happens (the
    old file exists and both names stay in the sandbox) moves the file
    to the new name and then raises "rename failed", as does renaming a
    file onto itself; a rename that cannot happen returns normally and
    changes nothing. *)
Theorem fs_rename_inverted (fs : fs_t) (w : world) (name1 name2 : string) :
  (forall ro rn f, real_name fs name1 = Some ro -> real_name fs name2 = Some rn ->
     w_files w !! ro = Some f ->
     fst (js_FS_rename fs w name1 name2) = Some "rename failed" /\
     w_files (snd (js_FS_rename fs w name1 name2)) !! rn = Some f /\
     (ro <> rn -> w_files (snd (js_FS_rename fs w name1 name2)) !! ro = None) /\
     (forall k, k <> ro -> k <> rn ->
        w_files (snd (js_FS_rename fs w name1 name2)) !! k = w_files w !! k)) /\
  ((real_name fs name1 = None \/ real_name fs name2 = None \/
    exists ro, real_name fs name1 = Some ro /\ w_files w !! ro = None) ->
     js_FS_rename fs w name1 name2 = (None, w)).
Proof.
  unfold js_FS_rename, fs_rename_rc. split.
  - intros ro rn f Hro Hrn Hf. rewrite Hro, Hrn, Hf.
    destruct (String.eqb_spec ro rn) as [<- | Hne]; cbn [fst snd Z.eqb].
    + split; [reflexivity | split; [exact Hf | split; [congruence |]]].
      intros; reflexivity.
    + cbn [set_files w_files].
      split; [reflexivity | split; [apply lookup_insert_eq | split]].
      * intros _. rewrite lookup_insert_ne by congruence. apply lookup_delete_eq.
      * intros k Hk1 Hk2. rewrite lookup_insert_ne by congruence.
        apply lookup_delete_ne. congruence.
  - intros [Hn | [Hn | [ro [Hro Hf]]]].
    + rewrite Hn. reflexivity.
    + rewrite Hn. destruct (real_name fs name1); reflexivity.
    + rewrite Hro, Hf. destruct (real_name fs name2); reflexivity.
Qed.

(* --------------------------------------------------------------------- *)
(** ** Cleaning a build *)

Lemma clean_old_artifacts_unlinks (b : build_t) (w : world) (k : string) :
  (k ∈ b_artifacts b -> w_files (clean_old_artifacts b w false) !! k = None) /\
  (k ∉ b_artifacts b -> w_files (clean_old_artifacts b w false) !! k = w_files w !! k).
Proof.
  unfold clean_old_artifacts.
  generalize (v_filenames (w_visor (visor_begin_op w "cleaning up old build artifacts"))).
  intros fl.
  set (f := fun (w' : world) a =>
              if false && existsb (fun f => String.eqb f a) fl then w'
              else visor_end_op (fs_unlink (visor_begin_op w' ("removing '" +++ a +++ "'")) a)).
  assert (Hf : forall w0 a, w_files (f w0 a) = delete a (w_files w0)) by reflexivity.
  assert (forall l (w0 : world),
            (k ∈ l -> w_files (fold_left f l w0) !! k = None) /\
            (k ∉ l -> w_files (fold_left f l w0) !! k = w_files w0 !! k)) as Hfold.
  { induction l as [| a l IH]; intros w0; cbn [fold_left].
    - split; [intros Hin; apply not_elem_of_nil in Hin; contradiction | reflexivity].
    - destruct (IH (f w0 a)) as [IH1 IH2]. split.
      + intros Hin. destruct (decide (k ∈ l)) as [Hl | Hl]; [apply IH1; exact Hl |].
        rewrite IH2 by exact Hl. rewrite Hf.
        apply elem_of_cons in Hin as [-> | Hin]; [apply lookup_delete_eq | contradiction].
      + intros Hin. apply not_elem_of_cons in Hin as [Hka Hl].
        rewrite IH2 by exact Hl. rewrite Hf. apply lookup_delete_ne. congruence. }
  destruct (Hfold (b_artifacts b) (visor_begin_op w "cleaning up old build artifacts")) as [H1 H2].
  split; intros Hk; cbn [visor_end_op set_visor w_files].
  - apply H1. exact Hk.
  - rewrite H2 by exact Hk. reflexivity.
Qed.

(** [build_clean] always reports success; afterwards every artifact the
    last build recorded and [@/artifacts.json] are gone, and every other
    file is left as it was. *)
Theorem build_clean_removes_artifacts (b : build_t) (w : world) :
  fst (build_clean b w) = true /\
  w_files (snd (build_clean b w)) !! "@/artifacts.json" = None /\
  (forall a, a ∈ b_artifacts b -> w_files (snd (build_clean b w)) !! a = None) /\
  (forall k, k ∉ b_artifacts b -> k <> "@/artifacts.json" ->
     w_files (snd (build_clean b w)) !! k = w_files w !! k).
Proof.
  unfold build_clean, fs_unlink, set_files. cbn [fst snd w_files].
  split; [reflexivity | split; [apply lookup_delete_eq | split]].
  - intros a Ha. destruct (decide (a = "@/artifacts.json")) as [-> | Hne];
      [apply lookup_delete_eq |].
    rewrite lookup_delete_ne by congruence. apply (clean_old_artifacts_unlinks b w a). exact Ha.
  - intros k Hk Hne. rewrite lookup_delete_ne by congruence.
    apply (clean_old_artifacts_unlinks b w k). exact Hk.
Qed.

(* --------------------------------------------------------------------- *)
(** ** A successful build *)

Lemma write_manifests_outcome (w : world) (desc : descriptor) :
  let '(ok, w', _) := write_manifests w desc in
  (ok = false -> visor_num_errors w' = S (visor_num_errors w)) /\
  (ok = true -> is_Some (w_files w' !! "@/game.json") /\ is_Some (w_files w' !! "@/game.sgm") /\
                w_now w' = w_now w).
Proof.
  destruct_manifests desc.
  all: split; intros; try discriminate; try reflexivity.
  all: cbn [w_files w_now set_files set_visor visor_end_op fs_fspew visor_warn visor_begin_op].
  all: split; [rewrite lookup_insert_eq; eexists; reflexivity |].
  all: split; [rewrite lookup_insert_ne by discriminate; rewrite lookup_insert_eq;
               eexists; reflexivity | reflexivity].
Qed.

Lemma clean_old_artifacts_errors (b : build_t) (w : world) (kt : bool) :
  visor_num_errors (clean_old_artifacts b w kt) = visor_num_errors w /\
  w_now (clean_old_artifacts b w kt) = w_now w.
Proof.
  unfold clean_old_artifacts.
  generalize (v_filenames (w_visor (visor_begin_op w "cleaning up old build artifacts"))).
  intros fl.
  assert (forall l (w0 : world),
            visor_num_errors (fold_left (fun w' a =>
               if kt && existsb (fun f => String.eqb f a) fl then w'
               else visor_end_op (fs_unlink (visor_begin_op w' ("removing '" +++ a +++ "'")) a))
               l w0) = visor_num_errors w0 /\
            w_now (fold_left (fun w' a =>
               if kt && existsb (fun f => String.eqb f a) fl then w'
               else visor_end_op (fs_unlink (visor_begin_op w' ("removing '" +++ a +++ "'")) a))
               l w0) = w_now w0) as Hfold.
  { induction l as [| a l IH]; intros w0; cbn [fold_left]; [split; reflexivity |].
    rewrite (proj1 (IH _)), (proj2 (IH _)).
    destruct (kt && existsb _ fl); split; reflexivity. }
  destruct (Hfold (b_artifacts b) (visor_begin_op w "cleaning up old build artifacts")) as [H1 H2].
  split; [exact H1 | exact H2].
Qed.

(** When [build_run] reports success, the run ended without errors and
    left a complete game: [@/game.json] and [@/game.sgm] exist,
    [@/artifacts.json] lists exactly the files the run recorded, and
    [@/sources.json] holds the source map when debugging was requested
    and is removed otherwise. *)
Theorem build_run_success (target_build : target_t -> bool -> world -> world)
    (b : build_t) (w : world) (want_debug rebuild_all : bool) (w' : world)
    (Hok : build_run target_build b w want_debug rebuild_all = (true, w')) :
  visor_num_errors w' = 0 /\
  w_files w' !! "@/artifacts.json"
    = Some (mkfile (json_string_array (v_filenames (w_visor w'))) (w_now w')) /\
  is_Some (w_files w' !! "@/game.json") /\ is_Some (w_files w' !! "@/game.sgm") /\
  (want_debug = true ->
     w_files w' !! "@/sources.json" = Some (mkfile (source_map_json (b_targets b)) (w_now w'))) /\
  (want_debug = false -> w_files w' !! "@/sources.json" = None).
Proof.
  unfold build_run in Hok.
  destruct (Nat.ltb_spec 0 (visor_num_errors (conflict_check w (b_targets b)))) as [Hc | Hc].
  - injection Hok as Hz _. apply Nat.eqb_eq in Hz.
    unfold visor_num_errors in *; cbn in Hz; lia.
  - set (w2 := fold_left _ (b_targets b) (conflict_check w (b_targets b))) in Hok.
    destruct (Nat.eqb_spec (visor_num_errors (visor_end_op w2)) 0) as [H3 | H3].
    + pose proof (clean_old_artifacts_errors b (visor_end_op w2) true) as [Hce Hcn].
      pose proof (write_manifests_outcome (clean_old_artifacts b (visor_end_op w2) true)
                    (b_descriptor b)) as Hwm.
      destruct (write_manifests (clean_old_artifacts b (visor_end_op w2) true) (b_descriptor b))
        as [[ok w5] d].
      destruct Hwm as [Hf Ht].
      destruct ok.
      * destruct (Ht eq_refl) as [Hj [Hs Hn]].
        cbn [negb] in Hok. injection Hok as Hz <-. apply Nat.eqb_eq in Hz.
        split; [exact Hz |].
        unfold fs_fspew, fs_unlink, set_files; cbn [w_files w_now w_visor].
        destruct want_debug; cbn [visor_end_op visor_begin_op set_visor w_files w_now w_visor].
        -- split; [apply lookup_insert_eq |].
           split; [rewrite !lookup_insert_ne by discriminate; exact Hj |].
           split; [rewrite !lookup_insert_ne by discriminate; exact Hs |].
           split; [| discriminate].
           intros _. rewrite lookup_insert_ne by discriminate. apply lookup_insert_eq.
        -- split; [apply lookup_insert_eq |].
           split; [rewrite lookup_insert_ne, lookup_delete_ne by discriminate; exact Hj |].
           split; [rewrite lookup_insert_ne, lookup_delete_ne by discriminate; exact Hs |].
           split; [discriminate |].
           intros _. rewrite lookup_insert_ne by discriminate. apply lookup_delete_eq.
      * cbn [negb] in Hok. injection Hok as Hz _. apply Nat.eqb_eq in Hz.
        specialize (Hf eq_refl). unfold visor_num_errors in *; cbn in Hz. lia.
    + injection Hok as Hz _. apply Nat.eqb_eq in Hz.
      unfold visor_num_errors in *; cbn in Hz, H3. lia.
Qed.

(* --------------------------------------------------------------------- *)
(** ** The install tool with a missing source *)

(** When the source of an install is missing, [install_target] returns
    false, which [tool_run] discards: no file changes, and the outcome
    depends only on the destination. If a copy from an earlier build is
    there, the step succeeds with the warning "target file unchanged
    after build" and the stale copy stays; otherwise it fails with the
    error "target file not found after build". *)
Theorem install_tool_missing_source (w : world) (out_path src : path)
    (Hsrc : w_files w !! path_cstr src = None) :
  let '(ok, w') := tool_run (Some install_tool) w out_path [src] in
  w_files w' = w_files w /\
  (is_Some (w_files w !! path_cstr out_path) ->
     ok = true /\ visor_num_errors w' = visor_num_errors w /\
     v_log (w_visor w') = v_log (w_visor w) ++ [(MsgWarn, "target file unchanged after build")]) /\
  (w_files w !! path_cstr out_path = None ->
     ok = false /\ visor_num_errors w' = S (visor_num_errors w) /\
     v_log (w_visor w') = v_log (w_visor w) ++ [(MsgError, "target file not found after build")]).
Proof.
  unfold tool_run. cbn [callback install_tool map].
  unfold install_target, fs_fcopy.
  cbn [w_files fs_mkdir tool_pre_world visor_begin_op set_visor].
  rewrite Hsrc.
  unfold fs_stat. cbn [w_files fs_mkdir tool_pre_world visor_begin_op set_visor].
  unfold visor_num_errors. cbn [w_visor fs_mkdir tool_pre_world visor_begin_op set_visor v_errors].
  rewrite Nat.ltb_irrefl. cbn [negb andb].
  destruct (w_files w !! path_cstr out_path) as [f |] eqn:Ho; cbn [fmap option_fmap option_map].
  - rewrite Z.eqb_refl. cbn.
    split; [reflexivity | split; [intros _; split; [reflexivity | split; reflexivity] |]].
    intros H. discriminate.
  - cbn. split; [reflexivity | split].
    + intros [g Hg]. discriminate.
    + intros _. split; [reflexivity | split; reflexivity].
Qed.

(* --------------------------------------------------------------------- *)
(** ** Module resolution and loading *)

Lemma find_loop_exists (json_decode : string -> option descriptor) (w : world) (id : string)
    (origin : option string) (sys_origin : string) (names : list string) (p : path) :
  find_loop json_decode w id origin sys_origin names = Some p -> fs_fexist w (path_cstr p) = true.
Proof.
  induction names as [| n names IH]; cbn [find_loop]; [discriminate |].
  destruct (fs_fexist w (path_cstr (candidate_path id origin sys_origin n))) eqn:He; [| exact IH].
  destruct (negb _).
  - intros H. injection H as <-. exact He.
  - destruct (load_package_json json_decode w _) as [mp |]; [| exact IH].
    destruct (fs_fexist w (path_cstr mp)) eqn:Hm; [| exact IH].
    intros H. injection H as <-. exact Hm.
Qed.

(** [require()] resolves a module id only to a file that exists; a
    relative id in global code is refused with a TypeError before any
    search; otherwise, when none of the system origins [$/lib],
    [#/cell_modules] and [#/runtime] yields a file, it raises "module
    not found". *)
Theorem require_resolves_existing_files (json_decode : string -> option descriptor)
    (w : world) (parent_id : option string) (id : string) :
  (forall p, js_require_resolve json_decode w parent_id id = inl p ->
     fs_fexist w (path_cstr p) = true) /\
  (parent_id = None -> is_relative_id id = true ->
     js_require_resolve json_decode w parent_id id
       = inr (TypeError "relative require not allowed in global code")) /\
  ((parent_id <> None \/ is_relative_id id = false) ->
   (forall sys, In sys PATHS -> find_cjs_module json_decode w id parent_id sys = None) ->
     js_require_resolve json_decode w parent_id id
       = inr (ReferenceError ("module not found '" +++ id +++ "'"))).
Proof.
  unfold js_require_resolve.
  assert (Hfold : forall l acc p,
             (forall p', acc = Some p' -> fs_fexist w (path_cstr p') = true) ->
             fold_left (fun acc sys => match acc with
                                       | Some p => Some p
                                       | None => find_cjs_module json_decode w id parent_id sys
                                       end) l acc = Some p ->
             fs_fexist w (path_cstr p) = true).
  { induction l as [| sys l IH]; intros acc p Hacc H; cbn [fold_left] in H.
    - apply Hacc. exact H.
    - refine (IH _ p _ H).
      intros p' Hp'. destruct acc as [a |].
      + apply Hacc. exact Hp'.
      + apply (find_loop_exists json_decode w id parent_id sys (filenames id)). exact Hp'. }
  split; [| split].
  - intros p.
    destruct (match parent_id with None => true | Some _ => false end && is_relative_id id);
      [discriminate |].
    destruct (fold_left _ PATHS None) as [q |] eqn:Hq; [| discriminate].
    intros H. injection H as <-. apply (Hfold PATHS None q); [discriminate | exact Hq].
  - intros -> ->. reflexivity.
  - intros Hg Hnone.
    replace (match parent_id with None => true | Some _ => false end && is_relative_id id)
      with false by (destruct Hg as [Hg | Hg]; [destruct parent_id; [reflexivity | congruence]
                                               | rewrite Hg, andb_false_r; reflexivity]).
    unfold PATHS in *. cbn [fold_left].
    rewrite (Hnone "$/lib"), (Hnone "#/cell_modules"), (Hnone "#/runtime") by (simpl; tauto).
    reflexivity.
Qed.

(** A module load never evicts or changes a module object that was
    already in the cache, whether the load returns or throws, and never
    runs the body of an already cached module again: every body it
    runs belongs to a module that was not cached when it started. *)
Theorem eval_cjs_module_preserves_cache (srcs : string -> source) (fuel : nat)
    (st st' : lstate) (f : string) (r : result)
    (H : eval_cjs_module srcs fuel st f = Some (st', r)) :
  (forall k m, cache st !! k = Some m -> cache st' !! k = Some m) /\
  (forall k, is_Some (cache st !! k) ->
     count_occ string_dec (runs st') k = count_occ string_dec (runs st) k).
Proof.
  destruct (eval_cjs_module_keeps srcs fuel st f st' r H) as [Hc [new [Hr Hn]]].
  split; [exact Hc |].
  intros k Hk. rewrite Hr, count_occ_app.
  assert (H0 : count_occ string_dec new k = 0).
  { apply count_occ_not_In. intros Hin. apply (Hn k Hk), list_elem_of_In, Hin. }
  rewrite H0. reflexivity.
Qed.

(* --------------------------------------------------------------------- *)
(** ** Conflict detection on distinct outputs *)

Lemma insert_sorted_perm (x : string) (l : list string) :
  Permutation (insert_sorted x l) (x :: l).
Proof.
  induction l as [| y l IH]; cbn [insert_sorted]; [reflexivity |].
  destruct (String.compare x y); try reflexivity.
  eapply Permutation_trans; [apply perm_skip, IH | apply perm_swap].
Qed.

Lemma sort_paths_perm (l : list string) : Permutation (sort_paths l) l.
Proof.
  induction l as [| x l IH]; cbn [sort_paths]; [reflexivity |].
  eapply Permutation_trans; [apply insert_sorted_perm | apply perm_skip, IH].
Qed.

Lemma conflict_scan_distinct (l : list string) : forall w last fn,
  NoDup (last :: l) -> (conflict_scan w last 1 fn l).1.1 = w /\ (conflict_scan w last 1 fn l).1.2 = 1.
Proof.
  induction l as [| f rest IH]; intros w last fn Hnd; cbn [conflict_scan]; [split; reflexivity |].
  inversion Hnd as [| ? ? Hlast Hnd']; subst.
  destruct (String.eqb_spec f last) as [-> | _]; [exfalso; apply Hlast; constructor |].
  cbn [Nat.ltb Nat.leb]. apply IH. exact Hnd'.
Qed.

(** When the targets' output paths are pairwise distinct and none is
    the empty string, the conflict check reports nothing: it only opens
    the "building targets" operation. The empty output path is the edge:
    since the scan starts from [last_filename = ""], a single target
    whose output path is empty is reported as a 2-way conflict. *)
Theorem conflict_check_distinct_paths (w : world) (targets : list target_t) :
  (NoDup (map (fun t => path_cstr (target_path t)) targets) ->
   ~ In "" (map (fun t => path_cstr (target_path t)) targets) ->
   conflict_check w targets = visor_begin_op w "building targets") /\
  (forall t, path_cstr (target_path t) = "" ->
   targets = [t] ->
   visor_num_errors (conflict_check w targets) = S (visor_num_errors w) /\
   v_log (w_visor (conflict_check w targets))
     = v_log (w_visor w) ++ [(MsgError, conflict_msg 2 "")]).
Proof.
  split.
  - intros Hnd Hne. unfold conflict_check.
    set (l := map (fun t => path_cstr (target_path t)) targets) in *.
    assert (Hnd' : NoDup ("" :: sort_paths l)).
    { constructor.
      - intros Hin. apply Hne. apply list_elem_of_In in Hin.
        eapply Permutation_in; [apply sort_paths_perm | exact Hin].
      - rewrite sort_paths_perm. exact Hnd. }
    destruct (conflict_scan_distinct (sort_paths l) (visor_begin_op w "building targets") "" "" Hnd')
      as [H1 H2].
    destruct (conflict_scan _ "" 1 "" (sort_paths l)) as [[w1 n] fn].
    cbn [fst snd] in H1, H2. subst. reflexivity.
  - intros t Ht ->. unfold conflict_check. cbn [map sort_paths insert_sorted].
    rewrite Ht. cbn. split; reflexivity.
Qed.

(* --------------------------------------------------------------------- *)
(** ** Witnesses of the properties with hypotheses *)

(** Writing ["XY"] at position 6 of the four-byte [@/main.js] through a
    ["r+b"] stream: a gap of two NUL bytes, then the data. *)
Lemma filestream_write_read_back_witness :
  (s_mode (mkstream "@/main.js" "r+b" 6) <> "rb" /\
   (Z.of_nat (s_pos (mkstream "@/main.js" "r+b" 6)) <= INT_MAX)%Z /\
   (Z.of_nat (String.length "XY") <= INT_MAX)%Z) /\
  (let s := mkstream "@/main.js" "r+b" 6 in
   let p := s_pos s in
   let c := file_data manifest_world s in
   let e := p + String.length "XY" in
   exists w1,
     js_FileStream_write manifest_world (Some s) "XY" = inl (set_pos s e, w1) /\
     js_FileStream_set_position (Some (set_pos s e)) (Z.of_nat p) = inl (set_pos s p) /\
     js_FileStream_read w1 (Some (set_pos s p)) (Some (Z.of_nat (String.length "XY")))
       = (inl "XY", Some (set_pos s e)) /\
     String.length (file_data w1 s) = Nat.max (String.length c) e /\
     substring 0 p (file_data w1 s) = substring 0 p c +++ nuls (p - String.length c) /\
     substring e (String.length c - e) (file_data w1 s) = substring e (String.length c - e) c /\
     (forall k, k <> s_name s -> w_files w1 !! k = w_files manifest_world !! k)).
Proof.
  assert (Hp : (Z.of_nat (s_pos (mkstream "@/main.js" "r+b" 6)) <= INT_MAX)%Z)
    by (unfold INT_MAX; simpl; lia).
  assert (Hl : (Z.of_nat (String.length "XY") <= INT_MAX)%Z) by (unfold INT_MAX; simpl; lia).
  split; [split; [discriminate | split; [exact Hp | exact Hl]] |].
  apply (filestream_write_read_back manifest_world (mkstream "@/main.js" "r+b" 6) "XY");
    [discriminate | exact Hp | exact Hl].
Defined.

Lemma filestream_read_only_writes_fail_witness :
  js_new_FileStream manifest_world "@/main.js" FILE_OP_READ
    = inl (mkstream "@/main.js" "rb" 0, manifest_world) /\
  (manifest_world = manifest_world /\
   mkstream "@/main.js" "rb" 0 = mkstream "@/main.js" "rb" 0 /\
   is_Some (w_files manifest_world !! "@/main.js") /\
   (forall d, d <> "" -> js_FileStream_write manifest_world (Some (mkstream "@/main.js" "rb" 0)) d
                          = inr (JSError "failure to write to file")) /\
   js_FileStream_write manifest_world (Some (mkstream "@/main.js" "rb" 0)) ""
     = inl (mkstream "@/main.js" "rb" 0, manifest_world)).
Proof.
  assert (H : js_new_FileStream manifest_world "@/main.js" FILE_OP_READ
                = inl (mkstream "@/main.js" "rb" 0, manifest_world)) by (vm_compute; reflexivity).
  split; [exact H |].
  exact (filestream_read_only_writes_fail manifest_world "@/main.js" _ _ H).
Defined.

Lemma directory_enumerates_listing_witness :
  directory_open (fun _ => true) "@/src" = Some (mkdirectory None 0 (path_new_dir "@/src")) /\
  (fun _ : string => Some [path_new "@/src/a.js"; path_new "@/src/b.js"])
    (path_cstr (path_new_dir "@/src")) = Some [path_new "@/src/a.js"; path_new "@/src/b.js"] /\
  (let fsl := fun _ : string => Some [path_new "@/src/a.js"; path_new "@/src/b.js"] in
   let l := [path_new "@/src/a.js"; path_new "@/src/b.js"] in
   directory_num_files fsl (mkdirectory None 0 (path_new_dir "@/src"))
     = Some (Z.of_nat (List.length l), mkdirectory (Some l) 0 (path_new_dir "@/src")) /\
   next_n fsl (List.length l + S 1) (mkdirectory None 0 (path_new_dir "@/src"))
     = Some (map Some l ++ repeat None (S 1),
             mkdirectory (Some l) (Z.of_nat (List.length l)) (path_new_dir "@/src"))).
Proof.
  split; [reflexivity | split; [reflexivity |]].
  exact (directory_enumerates_listing (fun _ => true)
           (fun _ => Some [path_new "@/src/a.js"; path_new "@/src/b.js"]) "@/src"
           (mkdirectory None 0 (path_new_dir "@/src"))
           [path_new "@/src/a.js"; path_new "@/src/b.js"] 1 eq_refl eq_refl).
Defined.

Lemma build_run_success_witness :
  build_run (fun _ _ w => w) (mkbuild [] [] loose_descriptor) manifest_world true false = (true, (snd (build_run (fun _ _ w => w) (mkbuild [] [] loose_descriptor) manifest_world true false))) /\
  (visor_num_errors (snd (build_run (fun _ _ w => w) (mkbuild [] [] loose_descriptor) manifest_world true false)) = 0 /\
   w_files (snd (build_run (fun _ _ w => w) (mkbuild [] [] loose_descriptor) manifest_world true false)) !! "@/artifacts.json"
     = Some (mkfile (json_string_array (v_filenames (w_visor (snd (build_run (fun _ _ w => w) (mkbuild [] [] loose_descriptor) manifest_world true false))))) (w_now (snd (build_run (fun _ _ w => w) (mkbuild [] [] loose_descriptor) manifest_world true false)))) /\
   is_Some (w_files (snd (build_run (fun _ _ w => w) (mkbuild [] [] loose_descriptor) manifest_world true false)) !! "@/game.json") /\ is_Some (w_files (snd (build_run (fun _ _ w => w) (mkbuild [] [] loose_descriptor) manifest_world true false)) !! "@/game.sgm") /\
   (true = true ->
      w_files (snd (build_run (fun _ _ w => w) (mkbuild [] [] loose_descriptor) manifest_world true false)) !! "@/sources.json"
      = Some (mkfile (source_map_json (b_targets (mkbuild [] [] loose_descriptor))) (w_now (snd (build_run (fun _ _ w => w) (mkbuild [] [] loose_descriptor) manifest_world true false))))) /\
   (true = false -> w_files (snd (build_run (fun _ _ w => w) (mkbuild [] [] loose_descriptor) manifest_world true false)) !! "@/sources.json" = None)).
Proof.
  assert (H : build_run (fun _ _ w => w) (mkbuild [] [] loose_descriptor) manifest_world true false = (true, (snd (build_run (fun _ _ w => w) (mkbuild [] [] loose_descriptor) manifest_world true false))))
    by (vm_compute; reflexivity).
  split; [exact H |].
  exact (build_run_success (fun _ _ w => w) (mkbuild [] [] loose_descriptor) manifest_world true false (snd (build_run (fun _ _ w => w) (mkbuild [] [] loose_descriptor) manifest_world true false)) H).
Defined.

(** Installing from a missing source over the existing [@/main.js]. *)
Lemma install_tool_missing_source_witness :
  w_files manifest_world !! path_cstr (path_new "@/missing.js") = None /\
  (let '(ok, w') := tool_run (Some install_tool) manifest_world (path_new "@/main.js")
                      [path_new "@/missing.js"] in
   w_files w' = w_files manifest_world /\
   (is_Some (w_files manifest_world !! path_cstr (path_new "@/main.js")) ->
      ok = true /\ visor_num_errors w' = visor_num_errors manifest_world /\
      v_log (w_visor w') = v_log (w_visor manifest_world)
                             ++ [(MsgWarn, "target file unchanged after build")]) /\
   (w_files manifest_world !! path_cstr (path_new "@/main.js") = None ->
      ok = false /\ visor_num_errors w' = S (visor_num_errors manifest_world) /\
      v_log (w_visor w') = v_log (w_visor manifest_world)
                             ++ [(MsgError, "target file not found after build")])).
Proof.
  assert (H : w_files manifest_world !! path_cstr (path_new "@/missing.js") = None)
    by (vm_compute; reflexivity).
  split; [exact H |].
  exact (install_tool_missing_source manifest_world (path_new "@/main.js")
           (path_new "@/missing.js") H).
Defined.

Lemma eval_cjs_module_preserves_cache_witness :
  eval_cjs_module loader_srcs 4 loader_init "a.js" = Some (loader_final, Ok 5) /\
  ((forall k m, cache loader_init !! k = Some m -> cache loader_final !! k = Some m) /\
   (forall k, is_Some (cache loader_init !! k) ->
      count_occ string_dec (runs loader_final) k = count_occ string_dec (runs loader_init) k)).
Proof.
  assert (H : eval_cjs_module loader_srcs 4 loader_init "a.js" = Some (loader_final, Ok 5))
    by (vm_compute; reflexivity).
  split; [exact H |].
  exact (eval_cjs_module_preserves_cache loader_srcs 4 loader_init loader_final "a.js" (Ok 5) H).
Defined.
